(** * android/pkg: the package registry built from packages.list and packages.xml

    A shallow embedding of [android_pkgs.go] and of the two [getself]
    hooks, followed by the properties of the registry that are checked
    against it.

    Conventions.
    - A Go [string] and a [[]byte] holding text are a Rocq [string]: a
      sequence of 8-bit characters.  Binary data (the decoded
      certificate, the SHA-1 sum) is a [list byte].
    - [uint32] and [uint64] are [Z]; the wrap-around of each operation
      is written out.
    - A Go function returning [(T, error)] returns an [outcome]: a value,
      a returned [error], or a run-time panic (index out of range).
    - [map[string]*Pkg] and [map[uint32][]*Pkg] are [gmap]s.  After
      [refresh] has built them no record is written again, so the shared
      pointers are represented by the records themselves.  A [nil] map
      is the empty map, a [nil] slice the empty list.
    - The files, the clock, the caller and the order in which the run
      time ranges over a map are the [World] of a call.

    The library functions the package calls are written after the Go
    library: [strconv.ParseUint], [bytes.Fields], [bytes.Split],
    [hex.DecodeString], [sha1.Sum].  [xml.Unmarshal] is represented by
    its result, [x509.ParseCertificate] is a parameter.  The iterators
    [IterateByName] and [IterateByUid] (goroutines feeding a channel),
    [String] and the unused [exists] are left out. *)

From Stdlib Require Import ZArith List String Ascii Lia Permutation.
From Stdlib.Strings Require Import Byte.
From stdpp Require Import base option list gmap strings.
Import ListNotations.

Local Open Scope string_scope.
Local Open Scope Z_scope.

(** ** Characters *)

Definition code (c : ascii) : Z := Z.of_N (N_of_ascii c).

Definition byte_val (b : byte) : Z := Z.of_N (Byte.to_N b).

Definition byte_of_Z (z : Z) : byte :=
  match Byte.of_N (Z.to_N (z mod 256)) with
  | Some b => b
  | None => x00
  end.

(** ** strconv.ParseUint with base 0 *)

Module Strconv.

Inductive NumErr := ErrSyntax | ErrRange.

(** [lower(c)]: [c | ('x' - 'X')]. *)
Definition lower (c : Z) : Z := Z.lor c 32.

Definition maxUint64 : Z := 2 ^ 64 - 1.

(** The base implied by the prefix of [s], and [s] without that prefix. *)
Definition base_prefix (s : string) : Z * string :=
  match s with
  | String c0 rest =>
      if code c0 =? 48 then
        match rest with
        | String c1 rest' =>
            if (3 <=? Z.of_nat (String.length s)) && (lower (code c1) =? 98)
            then (2, rest')
            else if (3 <=? Z.of_nat (String.length s)) && (lower (code c1) =? 111)
            then (8, rest')
            else if (3 <=? Z.of_nat (String.length s)) && (lower (code c1) =? 120)
            then (16, rest')
            else (8, rest)
        | EmptyString => (8, rest)
        end
      else (10, s)
  | EmptyString => (10, s)
  end.

(** The digit loop.  The result is [(n, underscores, err)]. *)
Fixpoint digits (base cutoff maxVal : Z) (s : string) (underscores : bool) (n : Z)
  : Z * bool * option NumErr :=
  match s with
  | EmptyString => (n, underscores, None)
  | String ch rest =>
      let c := code ch in
      if c =? 95 then digits base cutoff maxVal rest true n
      else
        let d :=
          if (48 <=? c) && (c <=? 57) then Some (c - 48)
          else if (97 <=? lower c) && (lower c <=? 122) then Some (lower c - 97 + 10)
          else None in
        match d with
        | None => (0, underscores, Some ErrSyntax)
        | Some d =>
            if base <=? d then (0, underscores, Some ErrSyntax)
            else if cutoff <=? n then (maxVal, underscores, Some ErrRange)
            else
              let n' := (n * base) mod 2 ^ 64 in
              let n1 := (n' + d) mod 2 ^ 64 in
              if (n1 <? n') || (maxVal <? n1) then (maxVal, underscores, Some ErrRange)
              else digits base cutoff maxVal rest underscores n1
        end
  end.

(** [underscoreOK]: the last thing seen is the beginning of the number,
    a digit or base prefix, an underscore, or something else. *)
Inductive saw := SawStart | SawDigit | SawUnderscore | SawOther.

Fixpoint underscore_scan (hex : bool) (s : string) (sw : saw) : bool :=
  match s with
  | EmptyString => match sw with SawUnderscore => false | _ => true end
  | String ch rest =>
      let c := code ch in
      if ((48 <=? c) && (c <=? 57))
         || (hex && (97 <=? lower c) && (lower c <=? 102))
      then underscore_scan hex rest SawDigit
      else if c =? 95 then
        match sw with
        | SawDigit => underscore_scan hex rest SawUnderscore
        | _ => false
        end
      else
        match sw with
        | SawUnderscore => false
        | _ => underscore_scan hex rest SawOther
        end
  end.

Definition underscoreOK (s : string) : bool :=
  let s :=
    match s with
    | String c rest => if (code c =? 45) || (code c =? 43) then rest else s
    | EmptyString => s
    end in
  match s with
  | String c0 (String c1 rest) =>
      if (code c0 =? 48)
         && ((lower (code c1) =? 98) || (lower (code c1) =? 111) || (lower (code c1) =? 120))
      then underscore_scan (lower (code c1) =? 120) rest SawDigit
      else underscore_scan false s SawStart
  | _ => underscore_scan false s SawStart
  end.

(** [ParseUint(s, 0, bitSize)] for [0 < bitSize <= 64]: the value and
    the error, as Go returns them. *)
Definition ParseUint0 (s : string) (bitSize : Z) : Z * option NumErr :=
  match s with
  | EmptyString => (0, Some ErrSyntax)
  | _ =>
      let '(base, body) := base_prefix s in
      let cutoff := maxUint64 / base + 1 in
      let maxVal := 2 ^ bitSize - 1 in
      match digits base cutoff maxVal body false 0 with
      | (n, _, Some e) => (n, Some e)
      | (n, underscores, None) =>
          if underscores && negb (underscoreOK s) then (0, Some ErrSyntax)
          else (n, None)
      end
  end.

End Strconv.

(** ** bytes.Fields and bytes.Split *)

Module Bytes.

(** The [asciiSpace] table: tab, newline, vertical tab, form feed,
    carriage return and space.  Bytes of 0x80 and above are taken as
    ordinary characters (the manifest is ASCII). *)
Definition isSpace (c : ascii) : bool :=
  let n := code c in
  (n =? 9) || (n =? 10) || (n =? 11) || (n =? 12) || (n =? 13) || (n =? 32).

(** [cur] is the field being read, if one has been started. *)
Fixpoint fields_from (cur : option string) (s : string) : list string :=
  match s with
  | EmptyString => match cur with Some f => [f] | None => [] end
  | String c rest =>
      if isSpace c then
        match cur with
        | Some f => f :: fields_from None rest
        | None => fields_from None rest
        end
      else
        fields_from (Some (match cur with Some f => f ++ String c "" | None => String c "" end)) rest
  end.

Definition Fields (s : string) : list string := fields_from None s.

(** [bytes.Split(s, sep)] for a separator of one byte: every piece
    between two separators, empty pieces included. *)
Fixpoint split_from (sep : ascii) (cur : string) (s : string) : list string :=
  match s with
  | EmptyString => [cur]
  | String c rest =>
      if Ascii.eqb c sep then cur :: split_from sep "" rest
      else split_from sep (cur ++ String c "") rest
  end.

Definition Split (s : string) (sep : ascii) : list string := split_from sep "" s.

End Bytes.

(** ** encoding/hex.DecodeString *)

Module Hex.

Inductive HexErr := InvalidByteError (c : ascii) | ErrLength.

(** [reverseHexTable]: the value of a hex digit, 255 for any other byte. *)
Definition fromHexChar (c : ascii) : Z :=
  let n := code c in
  if (48 <=? n) && (n <=? 57) then n - 48
  else if (97 <=? n) && (n <=? 102) then n - 97 + 10
  else if (65 <=? n) && (n <=? 70) then n - 65 + 10
  else 255.

(** The bytes decoded so far and the error, as [Decode] returns them. *)
Fixpoint Decode (src : string) : list byte * option HexErr :=
  match src with
  | EmptyString => ([], None)
  | String p EmptyString =>
      if 15 <? fromHexChar p then ([], Some (InvalidByteError p))
      else ([], Some ErrLength)
  | String p (String q rest) =>
      let a := fromHexChar p in
      let b := fromHexChar q in
      if 15 <? a then ([], Some (InvalidByteError p))
      else if 15 <? b then ([], Some (InvalidByteError q))
      else
        let '(bs, e) := Decode rest in
        (byte_of_Z (Z.lor (Z.shiftl a 4) b) :: bs, e)
  end.

Definition DecodeString (s : string) : list byte * option HexErr := Decode s.

End Hex.

(** ** crypto/sha1.Sum *)

Module Sha1.

Definition w32 (x : Z) : Z := x mod 2 ^ 32.

Definition rotl (n x : Z) : Z :=
  w32 (Z.lor (Z.shiftl x n) (Z.shiftr x (32 - n))).

(** Big-endian bytes of a 32-bit and of a 64-bit word. *)
Definition be32 (x : Z) : list Z :=
  [Z.shiftr x 24 mod 256; Z.shiftr x 16 mod 256; Z.shiftr x 8 mod 256; x mod 256].

Definition be64 (x : Z) : list Z :=
  be32 (Z.shiftr x 32 mod 2 ^ 32) ++ be32 (x mod 2 ^ 32).

(** The message, the bit 1, zeros up to 56 modulo 64, and the length
    in bits. *)
Definition pad (msg : list byte) : list Z :=
  let len := Z.of_nat (length msg) in
  map byte_val msg ++ [128] ++ repeat 0 (Z.to_nat ((55 - len) mod 64))
    ++ be64 ((8 * len) mod 2 ^ 64).

Fixpoint words (n : nat) (bs : list Z) : list Z :=
  match n, bs with
  | S n', b0 :: b1 :: b2 :: b3 :: rest =>
      Z.lor (Z.shiftl b0 24) (Z.lor (Z.shiftl b1 16) (Z.lor (Z.shiftl b2 8) b3))
        :: words n' rest
  | _, _ => []
  end.

(** The message schedule, most recent word first. *)
Fixpoint schedule (n : nat) (rw : list Z) : list Z :=
  match n with
  | O => rw
  | S n' =>
      let x := Z.lxor (Z.lxor (nth 2 rw 0) (nth 7 rw 0))
                      (Z.lxor (nth 13 rw 0) (nth 15 rw 0)) in
      schedule n' (rotl 1 x :: rw)
  end.

Definition state : Type := Z * Z * Z * Z * Z.

Definition round (t : Z) (st : state) (w : Z) : state :=
  let '(a, b, c, d, e) := st in
  let '(f, k) :=
    if t <? 20 then (Z.lor (Z.land b c) (Z.land (Z.lxor b (2 ^ 32 - 1)) d), 1518500249)
    else if t <? 40 then (Z.lxor b (Z.lxor c d), 1859775393)
    else if t <? 60 then
      (Z.lor (Z.lor (Z.land b c) (Z.land b d)) (Z.land c d), 2400959708)
    else (Z.lxor b (Z.lxor c d), 3395469782) in
  (w32 (rotl 5 a + f + e + w + k), a, rotl 30 b, c, d).

Fixpoint rounds (t : Z) (ws : list Z) (st : state) : state :=
  match ws with
  | [] => st
  | w :: ws' => rounds (t + 1) ws' (round t st w)
  end.

Definition block (h : state) (blk : list Z) : state :=
  let ws := rev (schedule 64 (rev (words 16 blk))) in
  let '(h0, h1, h2, h3, h4) := h in
  let '(a, b, c, d, e) := rounds 0 ws h in
  (w32 (h0 + a), w32 (h1 + b), w32 (h2 + c), w32 (h3 + d), w32 (h4 + e)).

Fixpoint blocks (n : nat) (h : state) (bs : list Z) : state :=
  match n with
  | O => h
  | S n' => blocks n' (block h (firstn 64 bs)) (skipn 64 bs)
  end.

Definition init : state :=
  (1732584193, 4023233417, 2562383102, 271733878, 3285377520).

(** The 20 bytes of the digest. *)
Definition Sum (data : list byte) : list byte :=
  let p := pad data in
  let '(h0, h1, h2, h3, h4) := blocks (length p / 64) init p in
  map byte_of_Z (be32 h0 ++ be32 h1 ++ be32 h2 ++ be32 h3 ++ be32 h4).

End Sha1.

(** ** Errors, panics and outcomes *)

(** An error value produced by a library. *)
Inductive cause :=
| NumError (num : string) (e : Strconv.NumErr)
| HexError (e : Hex.HexErr)
| X509Error (msg : string)
| XmlError (msg : string)
| PathError (op path : string).

Inductive operand := OStr (s : string) | OErr (e : cause).

(** [Errorf format args] is the value of [fmt.Errorf(format, args...)];
    [Lib e] is a library error handed on unchanged. *)
Inductive error :=
| Errorf (format : string) (args : list operand)
| Lib (e : cause).

Inductive panic := IndexOutOfRange (i len : nat).

Inductive outcome (A : Type) :=
| Ok (a : A)
| Err (e : error)
| Panic (p : panic).

Arguments Ok {A} a.
Arguments Err {A} e.
Arguments Panic {A} p.

#[global] Instance outcome_ret : MRet outcome := fun A a => Ok a.

#[global] Instance outcome_bind : MBind outcome := fun A B f m =>
  match m with
  | Ok a => f a
  | Err e => Err e
  | Panic p => Panic p
  end.

(** [v[i]] on a slice. *)
Definition index {A : Type} (v : list A) (i : nat) : outcome A :=
  match v !! i with
  | Some x => Ok x
  | None => Panic (IndexOutOfRange i (length v))
  end.

Definition LF : ascii := "010"%char.
Definition CR : ascii := "013"%char.

(** ** fmt.Sprintf("%v", uid) for an unsigned integer *)

Definition digit_char (d : Z) : ascii := ascii_of_N (Z.to_N (48 + d)).

Fixpoint format_digits (fuel : nat) (n : Z) (acc : string) : string :=
  match fuel with
  | O => acc
  | S fuel' =>
      let acc' := String (digit_char (n mod 10)) acc in
      if n / 10 =? 0 then acc' else format_digits fuel' (n / 10) acc'
  end.

(** Twenty digits are enough for a [uint64]. *)
Definition FormatUint (n : Z) : string := format_digits 20 n "".

(** ** The iteration order of [range] over a map *)

(** Go leaves the order unspecified.  The run time's choice is a
    sequence of positions: each step takes the element at the next
    position (modulo the number left) out of the entries not yet
    visited. *)
Fixpoint pick_order {A : Type} (n : nat) (ks : list nat) (l : list A) : list A :=
  match n with
  | O => []
  | S n' =>
      let k := (hd 0%nat ks mod length l)%nat in
      match l !! k with
      | Some x => x :: pick_order n' (tl ks) (delete k l)
      | None => []
      end
  end.

Definition range_order {A : Type} (ks : list nat) (l : list A) : list A :=
  pick_order (length l) ks l.

(** ** The package record and the decoded markup manifest *)

(** [x509.ParseCertificate]: the certificate a DER encoding parses to,
    or the text of the error. *)
Class X509 := {
  Certificate : Type;
  ParseCertificate : list byte -> Certificate + string
}.

Definition Time : Type := Z.

(** [t.After(u)] *)
Definition After (t u : Time) : bool := u <? t.

Module Xml.

Record cert := { Cert : string }.

Record xpkg := {
  Name : string;
  Path : string;
  NativePath : string;
  PubFlags : Z;
  Uid : Z;
  SharedUid : Z;
  Inst : string;
  Version : string;
  Certstr : cert
}.

(** The content of packages.xml as [xml.Unmarshal] reads it: the
    error it reports, or the [package] elements in document order. *)
Inductive file :=
| Malformed (msg : string)
| Packages (Pkgs : list xpkg).

End Xml.

(** [Cert] is [None] and [Certhash] is [[]] for the [nil] of the source. *)
Record Pkg `{X509} := {
  Name : string;
  DataPath : string;
  Path : string;
  Uid : Z;
  SEinfo : string;
  Gid : list Z;
  Cert : option Certificate;
  Certhash : list byte
}.

(** The fields [list] and [xml] of the source are [listFile] and
    [xmlFile] here. *)
Record PackageDB `{X509} := {
  listFile : string;
  xmlFile : string;
  lastUpd : Time;
  byName : gmap string Pkg;
  byUid : gmap Z (list Pkg)
}.

(** What the operating system answers during one call. *)
Record World := {
  (** [os.Stat(path).ModTime()], [None] when [Stat] fails *)
  os_Stat : string -> option Time;
  (** [os.Open(path)] and the bytes read from it *)
  os_Open : string -> string + cause;
  (** [ioutil.ReadFile(path)] *)
  ReadFile : string -> Xml.file + cause;
  (** [time.Now().UTC()] *)
  Now : Time;
  (** [os.Getuid()] *)
  Getuid : Z;
  (** whether /system/build.prop can be opened *)
  build_prop : bool;
  (** the order in which [range byName] visits the entries *)
  map_order : list nat
}.

(** ** The parsers *)

Section Registry.

Context `{X509}.

(** The chunks [ReadBytes(LF)] returns one after the other: each ends
    with the delimiter, except possibly the last, which comes with
    [io.EOF].  Read errors other than the end of the file are not
    modelled. *)
Fixpoint ReadBytes (cur : string) (s : string) : list string :=
  match s with
  | EmptyString => [cur]
  | String c rest =>
      if Ascii.eqb c LF then (cur ++ String c "")%string :: ReadBytes "" rest
      else ReadBytes (cur ++ String c "")%string rest
  end.

(** [b[:x-1]] when [b[x-1] == c]. *)
Fixpoint chop (c : ascii) (b : string) : string :=
  match b with
  | EmptyString => b
  | String a EmptyString => if Ascii.eqb a c then "" else b
  | String a rest => String a (chop c rest)
  end.

Definition genlines (data : string) : list string :=
  flat_map (fun b =>
    if (String.length b =? 0)%nat then []
    else
      let b := chop LF b in
      if (String.length b =? 0)%nat then []
      else
        let b := chop CR b in
        if (String.length b =? 0)%nat then [] else [b])
    (ReadBytes "" data).

(** The loop over the group ids of one line; [v] is the line's fields. *)
Fixpoint parseGids (v : list string) (z : list string) (gid : list Z) : outcome (list Z) :=
  match z with
  | [] => Ok gid
  | gs :: z' =>
      let '(g, err) := Strconv.ParseUint0 gs 32 in
      match err with
      | Some e =>
          v0 ← index v 0;
          Err (Errorf "Cannot parse GID <%s> for %s: %s"
                 [OStr gs; OStr v0; OErr (NumError gs e)])
      | None => parseGids v z' (gid ++ [g mod 2 ^ 32])
      end
  end.

(** The body of the loop of [parseList]: [None] is [continue]. *)
Definition parseListLine (l : string) : outcome (option Pkg) :=
  let v := Bytes.Fields l in
  if (length v =? 0)%nat then Ok None
  else
    v1 ← index v 1;
    let '(u, err) := Strconv.ParseUint0 v1 32 in
    match err with
    | Some e =>
        v0 ← index v 0;
        Err (Errorf "Cannot parse UID <%s> for %s: %s"
               [OStr v1; OStr v0; OErr (NumError v1 e)])
    | None =>
        v5 ← index v 5;
        gid ← (if String.eqb v5 "none" then Ok []
               else parseGids v (Bytes.Split v5 ","%char) []);
        v0 ← index v 0;
        v3 ← index v 3;
        v4 ← index v 4;
        Ok (Some {| Name := v0; DataPath := v3; Path := ""; Uid := u mod 2 ^ 32;
                    SEinfo := v4; Gid := gid; Cert := None; Certhash := [] |})
    end.

Fixpoint parseLines (ls : list string) (pa : list Pkg) : outcome (list Pkg) :=
  match ls with
  | [] => Ok pa
  | l :: ls' =>
      r ← parseListLine l;
      parseLines ls' (match r with Some p => pa ++ [p] | None => pa end)
  end.

Definition parseList (w : World) (fn : string) : outcome (list Pkg) :=
  match os_Open w fn with
  | inr err => Err (Lib err)
  | inl data => parseLines (genlines data) []
  end.

(** The choice of [y.Uid] in the loop of [parseXML]. *)
Definition ownerUid (x : Xml.xpkg) : outcome Z :=
  if 0 <? Xml.Uid x then Ok (Xml.Uid x)
  else if 0 <? Xml.SharedUid x then Ok (Xml.SharedUid x)
  else Err (Errorf ("%s: uid and sharedUid are both Nil!" ++ String LF "")
              [OStr (Xml.Name x)]).

(** The body of the loop of [parseXML]. *)
Definition parseXMLPkg (x : Xml.xpkg) : outcome Pkg :=
  uid ← ownerUid x;
  let y := {| Name := Xml.Name x; DataPath := ""; Path := Xml.Path x; Uid := uid;
              SEinfo := ""; Gid := []; Cert := None; Certhash := [] |} in
  let hexstr := Xml.Cert (Xml.Certstr x) in
  if (0 <? String.length hexstr)%nat then
    let '(b, err) := Hex.DecodeString hexstr in
    match err with
    | Some e =>
        Err (Errorf "%s: Can't decode cert hex: %s" [OStr (Xml.Name x); OErr (HexError e)])
    | None =>
        if (0 <? length b)%nat then
          match ParseCertificate b with
          | inr msg =>
              Err (Errorf "%s: Can't parse X509 DER cert: %s"
                     [OStr (Xml.Name x); OErr (X509Error msg)])
          | inl crt =>
              Ok {| Name := Name y; DataPath := DataPath y; Path := Path y; Uid := Uid y;
                    SEinfo := SEinfo y; Gid := Gid y;
                    Cert := Some crt; Certhash := Sha1.Sum b |}
          end
        else Ok y
    end
  else Ok y.

Fixpoint parseXMLPkgs (xs : list Xml.xpkg) : outcome (list Pkg) :=
  match xs with
  | [] => Ok []
  | x :: xs' =>
      y ← parseXMLPkg x;
      g ← parseXMLPkgs xs';
      Ok (y :: g)
  end.

Definition parseXML (w : World) (fn : string) : outcome (list Pkg) :=
  match ReadFile w fn with
  | inr err => Err (Lib err)
  | inl (Xml.Malformed msg) => Err (Errorf "Cannot parse %s: %s" [OStr fn; OErr (XmlError msg)])
  | inl (Xml.Packages Pkgs) => parseXMLPkgs Pkgs
  end.

(** ** The registry *)

(** debug_linux.go: no pseudo package on Android itself. *)
Definition getself (w : World) : option Pkg :=
  if build_prop w then None
  else
    let uid := Getuid w mod 2 ^ 32 in
    let nm := ("caller-uid-" ++ FormatUint uid)%string in
    Some {| Name := nm; DataPath := ""; Path := ""; Uid := uid; SEinfo := "";
            Gid := []; Cert := None; Certhash := [] |}.

(** debug_posix.go: the other POSIX systems. *)
Definition getself_posix (w : World) : option Pkg :=
  let uid := Getuid w mod 2 ^ 32 in
  let nm := ("caller-uid-" ++ FormatUint uid)%string in
  Some {| Name := nm; DataPath := ""; Path := ""; Uid := uid; SEinfo := "";
          Gid := []; Cert := None; Certhash := [] |}.

(** [byName[p.Name] = p] *)
Definition setName (byName : gmap string Pkg) (p : Pkg) : gmap string Pkg :=
  <[Name p := p]> byName.

(** The record [a] after [a.Gid = p.Gid] and [a.DataPath = p.DataPath]. *)
Definition overlaid (a p : Pkg) : Pkg :=
  {| Name := Name a; DataPath := DataPath p; Path := Path a; Uid := Uid a;
     SEinfo := SEinfo a; Gid := Gid p; Cert := Cert a; Certhash := Certhash a |}.

(** The merge of one record [p] of packages.list: the two assignments
    on the record found under its name, or [byName[p.Name] = p]. *)
Definition mergeList (byName : gmap string Pkg) (p : Pkg) : gmap string Pkg :=
  match byName !! Name p with
  | Some a => <[Name p := overlaid a p]> byName
  | None => <[Name p := p]> byName
  end.

(** [byUid[p.Uid] = append(byUid[p.Uid], p)] *)
Definition appendUid (byUid : gmap Z (list Pkg)) (p : Pkg) : gmap Z (list Pkg) :=
  <[Uid p := (default [] (byUid !! Uid p) ++ [p])%list]> byUid.

(** The two maps built from the parsed manifests, before the pseudo
    package is added. *)
Definition mergedNames (xx ll : list Pkg) : gmap string Pkg :=
  foldl mergeList (foldl setName ∅ xx) ll.

Definition reverseLookup (order : list nat) (byName : gmap string Pkg)
  : gmap Z (list Pkg) :=
  foldl appendUid ∅ (range_order order (map_to_list byName)).*2.

(** [refresh]: the data base after the call, and the error returned
    ([Ok tt] for [nil]). *)
Definition refresh (w : World) (db : PackageDB) : PackageDB * outcome unit :=
  match parseList w (listFile db) with
  | Err e => (db, Err e)
  | Panic p => (db, Panic p)
  | Ok ll =>
      match parseXML w (xmlFile db) with
      | Err e => (db, Err e)
      | Panic p => (db, Panic p)
      | Ok xx =>
          let byName0 := mergedNames xx ll in
          let byUid0 := reverseLookup (map_order w) byName0 in
          let '(byName1, byUid1) :=
            match getself w with
            | Some p => (setName byName0 p, appendUid byUid0 p)
            | None => (byName0, byUid0)
            end in
          ({| listFile := listFile db; xmlFile := xmlFile db; lastUpd := Now w;
              byName := byName1; byUid := byUid1 |}, Ok tt)
      end
  end.

(** [maybeRefresh] returns nothing: the error of [refresh] is dropped. *)
Definition maybeRefresh (w : World) (db : PackageDB) : PackageDB * outcome unit :=
  match os_Stat w (listFile db) with
  | None => (db, Ok tt)
  | Some mt0 =>
      match os_Stat w (xmlFile db) with
      | None => (db, Ok tt)
      | Some mt1 =>
          if After mt0 (lastUpd db) || After mt1 (lastUpd db) then
            match refresh w db with
            | (db', Panic p) => (db', Panic p)
            | (db', _) => (db', Ok tt)
            end
          else (db, Ok tt)
      end
  end.

Definition OpenPackageDB (w : World) (xml list : string) : PackageDB * outcome unit :=
  refresh w {| listFile := list; xmlFile := xml; lastUpd := 0;
               byName := ∅; byUid := ∅ |}.

Definition Close (db : PackageDB) : PackageDB :=
  {| listFile := listFile db; xmlFile := xmlFile db; lastUpd := lastUpd db;
     byName := ∅; byUid := ∅ |}.

Definition GetListByUid (w : World) (uid : Z) (db : PackageDB)
  : PackageDB * outcome (list Pkg) :=
  match maybeRefresh w db with
  | (db', Ok _) => (db', Ok (default [] (byUid db' !! uid)))
  | (db', Err e) => (db', Err e)
  | (db', Panic p) => (db', Panic p)
  end.

Definition GetByName (w : World) (nm : string) (db : PackageDB)
  : PackageDB * outcome (option Pkg) :=
  match maybeRefresh w db with
  | (db', Ok _) => (db', Ok (byName db' !! nm))
  | (db', Err e) => (db', Err e)
  | (db', Panic p) => (db', Panic p)
  end.

Definition LastUpdate (db : PackageDB) : Time := lastUpd db.

(** [r[0]] of the bucket, or [nil]. *)
Definition GetByUid (w : World) (uid : Z) (db : PackageDB)
  : PackageDB * outcome (option Pkg) :=
  match maybeRefresh w db with
  | (db', Ok _) =>
      match byUid db' !! uid with
      | Some r => (db', p ← index r 0; Ok (Some p))
      | None => (db', Ok None)
      end
  | (db', Err e) => (db', Err e)
  | (db', Panic p) => (db', Panic p)
  end.

(** The data bases a program can hold: opened, then used. *)
Inductive reachable : PackageDB -> Prop :=
| reach_open w xml list : reachable (OpenPackageDB w xml list).1
| reach_lookup w db : reachable db -> reachable (maybeRefresh w db).1
| reach_close db : reachable db -> reachable (Close db).

(** Certificate and hash go together, and the hash is a SHA-1 sum. *)
Definition cert_ok (p : Pkg) : Prop :=
  match Cert p with
  | Some _ => length (Certhash p) = 20%nat
  | None => Certhash p = []
  end.

End Registry.

(** ** Sample manifests *)

Module Sample.

(** A stand-in for [x509.ParseCertificate] that accepts the encodings
    starting with the SEQUENCE tag and keeps the bytes. *)
Definition x509 : X509 :=
  {| Certificate := list byte;
     ParseCertificate := fun b =>
       match b with
       | x30 :: _ => inl b
       | _ => inr "asn1: structure error"
       end |}.

Definition package (name : string) (userId sharedUserId : Z) (key : string) : Xml.xpkg :=
  {| Xml.Name := name; Xml.Path := ("/data/app/" ++ name)%string; Xml.NativePath := "";
     Xml.PubFlags := 0; Xml.Uid := userId; Xml.SharedUid := sharedUserId;
     Xml.Inst := ""; Xml.Version := ""; Xml.Certstr := {| Xml.Cert := key |} |}.

(** A device ([android = true]) or a development host, with the two
    manifests last written at time 100 and the clock at 200. *)
Definition world (android : bool) (order : list nat) (lines : string)
    (packages : Xml.file) : World :=
  {| os_Stat := fun _ => Some 100; os_Open := fun _ => inl lines;
     ReadFile := fun _ => inl packages; Now := 200; Getuid := 1000;
     build_prop := android; map_order := order |}.

Definition nl (s : string) : string := (s ++ String LF "")%string.

Definition app_one_line : string :=
  nl "app.one 10050 0 /data/app.one seinfo:default 10050,10051".

Definition app_one : Xml.xpkg := package "app.one" 10050 0 "".

(** The registry of a device with the one package [app.one]. *)
Definition db_one : @PackageDB x509 :=
  (@OpenPackageDB x509
     (world true [] app_one_line (Xml.Packages [app_one]))
     "packages.xml" "packages.list").1.

(** packages.list has been rewritten, with a user id that is no number. *)
Definition world_bad_list : World :=
  {| os_Stat := fun _ => Some 300; os_Open := fun _ => inl (nl "app.two ten 0 /data/app.two default none");
     ReadFile := fun _ => inl (Xml.Packages [app_one]); Now := 400; Getuid := 1000;
     build_prop := true; map_order := [] |}.

(** packages.xml has been rewritten, with a package that has no owner. *)
Definition world_bad_xml : World :=
  {| os_Stat := fun _ => Some 300; os_Open := fun _ => inl app_one_line;
     ReadFile := fun _ => inl (Xml.Packages [package "app.two" 0 0 ""]);
     Now := 400; Getuid := 1000; build_prop := true; map_order := [] |}.

(** A package signed with a (stand-in) certificate, under a shared
    owner id, and no line for it in packages.list. *)
Definition signed : Xml.xpkg := package "app.signed" 0 10100 "3082AB01".

Definition db_signed : @PackageDB x509 :=
  (@OpenPackageDB x509
     (world true [] "" (Xml.Packages [signed]))
     "packages.xml" "packages.list").1.

(** A development host whose packages.xml lists a package with the
    name the pseudo package of user 1000 gets. *)
Definition world_same_name : World :=
  world false [] "" (Xml.Packages [package "caller-uid-1000" 5 0 ""]).

(** Two packages under one shared owner id; the devices differ in the
    iteration order of the run time only. *)
Definition shared_pair : Xml.file :=
  Xml.Packages [package "app.a" 0 10100 ""; package "app.b" 0 10100 ""].

Definition world_order (order : list nat) : World := world true order "" shared_pair.

End Sample.

(** ** Predicates of the properties *)

(** The error of [parseXML] for a package without owner. *)
Definition bothNil (x : Xml.xpkg) : error :=
  Errorf ("%s: uid and sharedUid are both Nil!" ++ String LF "") [OStr (Xml.Name x)].

(** Every record of the registry, by name or in a bucket, satisfies [P]. *)
Definition registry_Forall `{X509} (P : Pkg -> Prop) (db : PackageDB) : Prop :=
  map_Forall (fun _ p => P p) (byName db)
  /\ map_Forall (fun _ r => Forall P r) (byUid db).

(** Every record of a bucket is the value of [byName] under its own
    name, and under no other name. *)
Definition buckets_by_name `{X509} (db : PackageDB) : Prop :=
  forall uid r p, byUid db !! uid = Some r -> p ∈ r ->
    byName db !! Name p = Some p
    /\ forall nm, byName db !! nm = Some p -> nm = Name p.


(** A lookup by name that makes [refresh] fail returns that error. *)
Definition lookup_surfaces_error `{X509} (w : World) (db : PackageDB) : Prop :=
  forall e, (refresh w db).2 = Err e ->
    forall nm, (GetByName w nm db).2 = Err e.


(** The records in the order in which [refresh] appends them to the
    buckets: those of [byName] as [range] visits them, then the pseudo
    package. *)
Definition appended `{X509} (order : list nat) (m : gmap string Pkg) (self : option Pkg)
  : list Pkg :=
  (range_order order (map_to_list m)).*2 ++ option_list self.

(** The spelling of a string in capital and in small letters. *)
Definition upper_char (c : ascii) : ascii :=
  if (97 <=? code c) && (code c <=? 122) then ascii_of_N (Z.to_N (code c - 32)) else c.

Definition lower_char (c : ascii) : ascii :=
  if (65 <=? code c) && (code c <=? 90) then ascii_of_N (Z.to_N (code c + 32)) else c.

Fixpoint map_chars (f : ascii -> ascii) (s : string) : string :=
  match s with
  | EmptyString => EmptyString
  | String c rest => String (f c) (map_chars f rest)
  end.

Definition ToUpper (s : string) : string := map_chars upper_char s.
Definition ToLower (s : string) : string := map_chars lower_char s.

(** The package element [x] with [key] as the hex string of its
    certificate. *)
Definition with_key (x : Xml.xpkg) (key : string) : Xml.xpkg :=
  {| Xml.Name := Xml.Name x; Xml.Path := Xml.Path x; Xml.NativePath := Xml.NativePath x;
     Xml.PubFlags := Xml.PubFlags x; Xml.Uid := Xml.Uid x; Xml.SharedUid := Xml.SharedUid x;
     Xml.Inst := Xml.Inst x; Xml.Version := Xml.Version x;
     Xml.Certstr := {| Xml.Cert := key |} |}.

(** Every character of [s] satisfies [P]. *)
Fixpoint string_Forall (P : ascii -> Prop) (s : string) : Prop :=
  match s with
  | EmptyString => True
  | String c rest => P c /\ string_Forall P rest
  end.


(** ** Predicates of the further properties *)

(** The two indices agree: a record is bound to its own name, it is in
    the bucket of its owner id, and a bucket is a non-empty list of
    records with the owner id of the bucket. *)
Definition registry_wf `{X509} (db : PackageDB) : Prop :=
  (forall nm p, byName db !! nm = Some p -> Name p = nm)
  /\ (forall nm p, byName db !! nm = Some p ->
        exists r, byUid db !! Uid p = Some r /\ p ∈ r)
  /\ (forall uid r, byUid db !! uid = Some r ->
        r <> [] /\ Forall (fun p => Uid p = uid) r).

(** The last record of [l] with the name [nm]. *)
Definition lastNamed `{X509} (nm : string) (l : list Pkg) : option Pkg :=
  last (filter (fun p => Name p = nm) l).

(** The first record of [l] with the name [nm]. *)
Definition firstNamed `{X509} (nm : string) (l : list Pkg) : option Pkg :=
  head (filter (fun p => Name p = nm) l).

(** The text of the lines [ls], each followed by the line end [eol]. *)
Fixpoint unlines (eol : string) (ls : list string) : string :=
  match ls with
  | [] => ""
  | l :: ls' => (l ++ eol ++ unlines eol ls')%string
  end.

(** The last character of [s] is not [c]. *)
Fixpoint not_ending (c : ascii) (s : string) : Prop :=
  match s with
  | EmptyString => True
  | String a EmptyString => a <> c
  | String _ rest => not_ending c rest
  end.

(** A line as [genlines] delivers it: not empty, without line feed and
    not ending in a carriage return. *)
Definition plain_line (l : string) : Prop :=
  l <> "" /\ string_Forall (fun c => c <> LF) l /\ not_ending CR l.

(** The test of [maybeRefresh]: both files can be examined and one of
    them is newer than the registry. *)
Definition stale `{X509} (w : World) (db : PackageDB) : bool :=
  match os_Stat w (listFile db), os_Stat w (xmlFile db) with
  | Some mt0, Some mt1 => After mt0 (lastUpd db) || After mt1 (lastUpd db)
  | _, _ => false
  end.

(** ** Further sample worlds *)

Module Sample2.

(** The device of [Sample.db_one] after both manifests were written
    again, at time 300, with the same content. *)
Definition world_touched : World :=
  {| os_Stat := fun _ => Some 300; os_Open := fun _ => inl Sample.app_one_line;
     ReadFile := fun _ => inl (Xml.Packages [Sample.app_one]); Now := 400;
     Getuid := 1000; build_prop := true; map_order := [] |}.

(** The same device before anything was written again. *)
Definition world_untouched : World :=
  Sample.world true [] Sample.app_one_line (Xml.Packages [Sample.app_one]).

End Sample2.

(** The record [y] of the package element [x], field by field. *)
Definition record_of `{X509} (x : Xml.xpkg) (y : Pkg) : Prop :=
  Name y = Xml.Name x /\ Path y = Xml.Path x
  /\ ownerUid x = Ok (Uid y) /\ 0 < Uid y
  /\ DataPath y = "" /\ SEinfo y = "" /\ Gid y = []
  /\ match Cert y with
     | None => Certhash y = [] /\ Xml.Cert (Xml.Certstr x) = ""
     | Some crt =>
         exists b, Hex.DecodeString (Xml.Cert (Xml.Certstr x)) = (b, None)
                   /\ ParseCertificate b = inl crt /\ Certhash y = Sha1.Sum b
     end.



(** The body of the loop of [genlines]: what is sent for the chunk [b]. *)
Definition line_of_chunk (b : string) : list string :=
  if (String.length b =? 0)%nat then []
  else
    let b := chop LF b in
    if (String.length b =? 0)%nat then []
    else
      let b := chop CR b in
      if (String.length b =? 0)%nat then [] else [b].

Definition eol_LF : string := String LF "".
Definition eol_CRLF : string := String CR (String LF "").

(** * Properties *)

(** ** Facts about the library models *)

Lemma Sha1_Sum_length (data : list byte) : length (Sha1.Sum data) = 20%nat.
Proof.
  unfold Sha1.Sum.
  destruct (Sha1.blocks _ _ _) as [[[[h0 h1] h2] h3] h4].
  reflexivity.
Qed.

Example Sha1_Sum_abc :
  map byte_val (Sha1.Sum (map byte_of_Z [97; 98; 99]))
  = [169; 153; 62; 54; 71; 6; 129; 106; 186; 62; 37; 113; 120; 80; 194; 108;
     156; 208; 216; 157].
Proof. vm_compute. reflexivity. Qed.

Lemma outcome_bind_Ok {A B : Type} (m : outcome A) (f : A -> outcome B) (b : B) :
  m ≫= f = Ok b -> exists a, m = Ok a /\ f a = Ok b.
Proof. destruct m; simpl; intros E; try discriminate. eauto. Qed.

Ltac unbind := unfold mbind, outcome_bind, mret, outcome_ret in *.

Section RefreshFacts.

Context `{X509}.

Implicit Types (w : World) (db : PackageDB) (p a : Pkg).

Lemma refresh_Err_inv w db e :
  (refresh w db).2 = Err e ->
  parseList w (listFile db) = Err e
  \/ (exists ll, parseList w (listFile db) = Ok ll /\ parseXML w (xmlFile db) = Err e).
Proof.
  unfold refresh.
  destruct (parseList w (listFile db)) as [ll|e1|p1]; simpl.
  - destruct (parseXML w (xmlFile db)) as [xx|e2|p2]; simpl.
    + destruct (getself w); simpl; discriminate.
    + intros [= ->]. right. eauto.
    + discriminate.
  - intros [= ->]. by left.
  - discriminate.
Qed.

Lemma refresh_not_Ok_state w db :
  (refresh w db).2 <> Ok () -> (refresh w db).1 = db.
Proof.
  unfold refresh.
  destruct (parseList w (listFile db)) as [ll|e1|p1]; simpl; try done.
  destruct (parseXML w (xmlFile db)) as [xx|e2|p2]; simpl; try done.
  destruct (getself w); simpl; done.
Qed.

Lemma maybeRefresh_not_Err w db e : (maybeRefresh w db).2 <> Err e.
Proof.
  unfold maybeRefresh.
  destruct (os_Stat w (listFile db)); [|done].
  destruct (os_Stat w (xmlFile db)); [|done].
  destruct (_ || _); [|done].
  destruct (refresh w db) as [db' [[]|e'|p']]; done.
Qed.

Lemma maybeRefresh_refresh_Err w db e :
  (refresh w db).2 = Err e -> maybeRefresh w db = (db, Ok ()).
Proof.
  intros He.
  assert (Hst : (refresh w db).1 = db).
  { apply refresh_not_Ok_state. rewrite He. done. }
  unfold maybeRefresh.
  destruct (os_Stat w (listFile db)); [|done].
  destruct (os_Stat w (xmlFile db)); [|done].
  destruct (_ || _); [|done].
  destruct (refresh w db) as [db' r]; simpl in *; subst. done.
Qed.

End RefreshFacts.

(** ** C1: a failed rebuild leaves the registry as it was *)

(** C1.  When [refresh] returns an error (parsing either manifest
    failed), the data base after the attempt is the one before it: the
    two maps answer every lookup as before, [LastUpdate] is unchanged,
    and [GetByName] and [GetListByUid] called in that situation answer
    from the old maps. *)
Theorem refresh_error_keeps_registry `{X509} (w : World) (db : PackageDB) (e : error) :
  (refresh w db).2 = Err e ->
  (refresh w db).1 = db
  /\ (forall nm, byName (refresh w db).1 !! nm = byName db !! nm)
  /\ (forall uid, byUid (refresh w db).1 !! uid = byUid db !! uid)
  /\ LastUpdate (refresh w db).1 = LastUpdate db
  /\ (forall nm, GetByName w nm db = (db, Ok (byName db !! nm)))
  /\ (forall uid, GetListByUid w uid db = (db, Ok (default [] (byUid db !! uid)))).
Proof.
  intros He.
  assert (Hst : (refresh w db).1 = db).
  { apply refresh_not_Ok_state. rewrite He. done. }
  rewrite Hst. repeat split; try done.
  - intros nm. unfold GetByName. by rewrite (maybeRefresh_refresh_Err w db e He).
  - intros uid. unfold GetListByUid. by rewrite (maybeRefresh_refresh_Err w db e He).
Qed.

Lemma refresh_error_keeps_registry_witness :
  (@refresh Sample.x509 Sample.world_bad_list Sample.db_one).2
  = Err (Errorf "Cannot parse UID <%s> for %s: %s"
           [OStr "ten"; OStr "app.two"; OErr (NumError "ten" Strconv.ErrSyntax)])
  /\ (@refresh Sample.x509 Sample.world_bad_list Sample.db_one).1 = Sample.db_one.
Proof.
  split; [vm_compute; reflexivity|].
  eapply (@refresh_error_keeps_registry Sample.x509 Sample.world_bad_list Sample.db_one).
  vm_compute. reflexivity.
Defined.

(** ** C3: the owner id of a package element *)

Section OwnerId.

Context `{X509}.

Lemma parseXMLPkg_Uid (x : Xml.xpkg) (y : Pkg) :
  parseXMLPkg x = Ok y -> ownerUid x = Ok (Uid y) /\ Name y = Xml.Name x.
Proof.
  unfold parseXMLPkg. intros Hy.
  apply outcome_bind_Ok in Hy as (uid & -> & Hy).
  destruct (0 <? String.length _)%nat.
  - destruct (Hex.DecodeString _) as [b [e|]]; [discriminate|].
    destruct (0 <? length b)%nat.
    + destruct (ParseCertificate b); [|discriminate].
      by injection Hy as <-.
    + by injection Hy as <-.
  - by injection Hy as <-.
Qed.

Lemma parseXMLPkgs_app_Err (pre post : list Xml.xpkg) (x : Xml.xpkg) (g : list Pkg) (e : error) :
  parseXMLPkgs pre = Ok g -> parseXMLPkg x = Err e ->
  parseXMLPkgs (pre ++ x :: post) = Err e.
Proof.
  revert g. induction pre as [|x0 pre IH]; intros g Hpre Hx; simpl.
  - by rewrite Hx.
  - simpl in Hpre.
    apply outcome_bind_Ok in Hpre as (y0 & Hy0 & Hpre).
    apply outcome_bind_Ok in Hpre as (g0 & Hg0 & _).
    rewrite Hy0. simpl. by rewrite (IH g0 Hg0 Hx).
Qed.

End OwnerId.

(** C3.  For a package element [x] of packages.xml: the owner id is
    [userId] when that is greater than zero, else [sharedUserId] when
    that is greater than zero, and the record parsed from [x] carries
    that id; when both are zero the element, and with it the whole
    manifest, is refused with an error whose operand is the name of the
    package. *)
Theorem parseXML_owner_id `{X509} (x : Xml.xpkg) :
  (0 < Xml.Uid x -> ownerUid x = Ok (Xml.Uid x))
  /\ (Xml.Uid x = 0 -> 0 < Xml.SharedUid x -> ownerUid x = Ok (Xml.SharedUid x))
  /\ (forall y, parseXMLPkg x = Ok y -> ownerUid x = Ok (Uid y))
  /\ (Xml.Uid x = 0 -> Xml.SharedUid x = 0 ->
      ownerUid x = Err (bothNil x)
      /\ parseXMLPkg x = Err (bothNil x)
      /\ forall w fn pre post g,
           ReadFile w fn = inl (Xml.Packages (pre ++ x :: post)) ->
           parseXMLPkgs pre = Ok g ->
           parseXML w fn = Err (bothNil x)).
Proof.
  split; [|split; [|split]].
  - intros Hu. unfold ownerUid.
    by destruct (Z.ltb_spec 0 (Xml.Uid x)); [|lia].
  - intros Hu Hs. unfold ownerUid. rewrite Hu. simpl.
    by destruct (Z.ltb_spec 0 (Xml.SharedUid x)); [|lia].
  - intros y Hy. by apply parseXMLPkg_Uid in Hy as [? _].
  - intros Hu Hs.
    assert (Ho : ownerUid x = Err (bothNil x)).
    { unfold ownerUid. by rewrite Hu, Hs. }
    assert (Hp : parseXMLPkg x = Err (bothNil x)).
    { unfold parseXMLPkg. by rewrite Ho. }
    split; [done|]. split; [done|].
    intros w fn pre post g Hrd Hpre.
    unfold parseXML. rewrite Hrd.
    by apply (parseXMLPkgs_app_Err pre post x g).
Qed.

Lemma parseXML_owner_id_witness :
  ownerUid (Sample.package "app.one" 10050 10100 "") = Ok 10050
  /\ ownerUid (Sample.package "app.two" 0 7 "") = Ok 7
  /\ @parseXMLPkg Sample.x509 (Sample.package "app.three" 0 0 "")
     = Err (Errorf ("%s: uid and sharedUid are both Nil!" ++ String LF "") [OStr "app.three"])
  /\ @parseXML Sample.x509 Sample.world_bad_xml "packages.xml"
     = Err (Errorf ("%s: uid and sharedUid are both Nil!" ++ String LF "") [OStr "app.two"]).
Proof.
  split; [|split; [|split]].
  - apply (@parseXML_owner_id Sample.x509 (Sample.package "app.one" 10050 10100 "")).
    simpl. lia.
  - apply (@parseXML_owner_id Sample.x509 (Sample.package "app.two" 0 7 "")).
    + reflexivity.
    + simpl. lia.
  - apply (@parseXML_owner_id Sample.x509 (Sample.package "app.three" 0 0 ""));
      reflexivity.
  - destruct (@parseXML_owner_id Sample.x509 (Sample.package "app.two" 0 0 ""))
      as (_ & _ & _ & Hnil).
    destruct (Hnil eq_refl eq_refl) as (_ & _ & Hdoc).
    apply (Hdoc Sample.world_bad_xml "packages.xml" [] [] []); reflexivity.
Defined.

(** ** C10: lines with fewer than six fields *)

Section ShortLines.

Context `{X509}.





End ShortLines.



(** ** The iteration order and the reverse lookup *)

Lemma pick_order_Permutation {A : Type} (n : nat) (ks : list nat) (l : list A) :
  length l = n -> pick_order n ks l ≡ₚ l.
Proof.
  revert ks l. induction n as [|n IH]; intros ks l Hlen; simpl.
  - by destruct l.
  - destruct (l !! (hd 0%nat ks mod length l)%nat) as [x|] eqn:Hx.
    + etransitivity; [|symmetry; apply (delete_Permutation l _ x Hx)].
      constructor. apply IH.
      pose proof (length_delete l _ (ex_intro _ x Hx)) as Hd. lia.
    + apply lookup_ge_None in Hx.
      assert (hd 0%nat ks mod length l < length l)%nat; [|lia].
      apply Nat.mod_upper_bound. lia.
Qed.

Lemma range_order_Permutation {A : Type} (ks : list nat) (l : list A) :
  range_order ks l ≡ₚ l.
Proof. by apply pick_order_Permutation. Qed.

(** Every order of the entries is the choice of some sequence. *)
Lemma range_order_complete {A : Type} (l l' : list A) :
  l' ≡ₚ l -> exists ks, range_order ks l = l'.
Proof.
  unfold range_order. revert l. induction l' as [|x l' IH]; intros l Hp.
  - apply Permutation_nil in Hp. subst l. by exists [].
  - assert (Hx : x ∈ l) by (rewrite <- Hp; apply list_elem_of_here).
    apply list_elem_of_lookup in Hx as [k Hk].
    pose proof (lookup_lt_Some _ _ _ Hk) as Hlt.
    assert (Hd : l' ≡ₚ delete k l).
    { apply (Permutation_cons_inv (a := x)).
      by rewrite Hp, <- (delete_Permutation l k x Hk). }
    destruct (IH _ Hd) as [ks Hks].
    exists (k :: ks).
    destruct l as [|y l0]; [simpl in Hlt; lia|].
    cbn [length pick_order hd tl].
    rewrite Nat.mod_small by done. cbn [length] in Hk. rewrite Hk.
    f_equal.
    assert (Hlen : length (delete k (y :: l0)) = length l0).
    { pose proof (length_delete (y :: l0) k (ex_intro _ x Hk)) as Hl.
      cbn [length] in Hl. lia. }
    by rewrite <- Hlen.
Qed.

Example genlines_crlf :
  genlines (String CR (String LF ("ab" ++ String CR (String LF (String LF "cd")))))
  = ["ab"; "cd"].
Proof. reflexivity. Qed.

Example Fields_line :
  Bytes.Fields "  app.one 10050 0 /data/app.one   seinfo:default 10050,10051 "
  = ["app.one"; "10050"; "0"; "/data/app.one"; "seinfo:default"; "10050,10051"].
Proof. reflexivity. Qed.

Example ParseUint0_literals :
  Strconv.ParseUint0 "0x1F" 32 = (31, None)
  /\ Strconv.ParseUint0 "010" 32 = (8, None)
  /\ Strconv.ParseUint0 "1_000" 32 = (1000, None)
  /\ Strconv.ParseUint0 "4294967296" 32 = (4294967295, Some Strconv.ErrRange)
  /\ Strconv.ParseUint0 "" 32 = (0, Some Strconv.ErrSyntax).
Proof. repeat split. Qed.

Section ReverseLookup.

Context `{X509}.

Implicit Types (p a : Pkg) (m : gmap string Pkg) (u : gmap Z (list Pkg)).

Lemma appendUid_lookup u p uid :
  appendUid u p !! uid
  = if decide (Uid p = uid) then Some (default [] (u !! uid) ++ [p])%list else u !! uid.
Proof.
  unfold appendUid. case_decide as Hd.
  - subst. by rewrite lookup_insert_eq.
  - by rewrite lookup_insert_ne.
Qed.

(** The bucket of [uid] after appending the records of [l] one by one:
    those of [l] with that [Uid], in the order of [l], behind what the
    bucket held. *)
Lemma foldl_appendUid_lookup u (l : list Pkg) uid :
  foldl appendUid u l !! uid
  = match filter (fun p => Uid p = uid) l with
    | [] => u !! uid
    | f => Some (default [] (u !! uid) ++ f)%list
    end.
Proof.
  revert u. induction l as [|p l IH]; intros u; simpl; [done|].
  rewrite IH, appendUid_lookup, filter_cons.
  case_decide as Hd; simpl.
  - destruct (filter _ l); simpl; [done|]. by rewrite <- app_assoc.
  - done.
Qed.

Lemma reverseLookup_lookup order m uid :
  reverseLookup order m !! uid
  = match filter (fun p => Uid p = uid) (range_order order (map_to_list m)).*2 with
    | [] => None
    | f => Some f
    end.
Proof.
  unfold reverseLookup. rewrite foldl_appendUid_lookup, lookup_empty. done.
Qed.

(** Every record of a bucket is bound in [byName], and has the bucket's
    owner id; a bucket is never empty. *)
Lemma reverseLookup_sound order m uid (r : list Pkg) p :
  reverseLookup order m !! uid = Some r -> p ∈ r ->
  Uid p = uid /\ exists nm, m !! nm = Some p.
Proof.
  rewrite reverseLookup_lookup. intros Hr Hp.
  assert (Hin : p ∈ filter (fun p => Uid p = uid) (range_order order (map_to_list m)).*2).
  { destruct (filter _ _); [done|]. by injection Hr as ->. }
  apply list_elem_of_filter in Hin as [Hu Hin]. split; [done|].
  apply list_elem_of_fmap in Hin as ([nm q] & -> & Hin).
  rewrite range_order_Permutation in Hin.
  apply elem_of_map_to_list in Hin. eauto.
Qed.

Lemma reverseLookup_complete order m nm p :
  m !! nm = Some p ->
  exists r, reverseLookup order m !! Uid p = Some r /\ p ∈ r.
Proof.
  intros Hm. rewrite reverseLookup_lookup.
  assert (Hin : p ∈ filter (fun q => Uid q = Uid p) (range_order order (map_to_list m)).*2).
  { apply list_elem_of_filter. split; [done|].
    apply list_elem_of_fmap. exists (nm, p). split; [done|].
    rewrite range_order_Permutation. by apply elem_of_map_to_list. }
  destruct (filter _ _) as [|q f]; [by apply elem_of_nil in Hin|]. eauto.
Qed.

(** Two iteration orders fill every bucket with the same records. *)
Lemma reverseLookup_order order1 order2 m uid :
  match reverseLookup order1 m !! uid, reverseLookup order2 m !! uid with
  | Some r1, Some r2 => r1 ≡ₚ r2
  | None, None => True
  | _, _ => False
  end.
Proof.
  rewrite !reverseLookup_lookup.
  assert (Hp : filter (fun p => Uid p = uid) (range_order order1 (map_to_list m)).*2
               ≡ₚ filter (fun p => Uid p = uid) (range_order order2 (map_to_list m)).*2).
  { by rewrite !range_order_Permutation. }
  destruct (filter _ _) as [|q1 f1], (filter _ _) as [|q2 f2]; try done.
  - by apply Permutation_nil_cons in Hp.
  - symmetry in Hp. by apply Permutation_nil_cons in Hp.
Qed.

End ReverseLookup.

(** ** The merge of the two record lists *)

Section Merge.

Context `{X509}.

Implicit Types (p a : Pkg) (m : gmap string Pkg) (u : gmap Z (list Pkg)).
Implicit Types (P : Pkg -> Prop).

Lemma mergeList_lookup m p nm :
  mergeList m p !! nm
  = if decide (Name p = nm)
    then Some (match m !! nm with Some a => overlaid a p | None => p end)
    else m !! nm.
Proof.
  unfold mergeList. case_decide as Hd.
  - subst. destruct (m !! Name p); by rewrite lookup_insert_eq.
  - destruct (m !! Name p); by rewrite lookup_insert_ne.
Qed.

Lemma foldl_setName_Forall P m (xx : list Pkg) :
  map_Forall (fun _ p => P p) m -> Forall P xx ->
  map_Forall (fun _ p => P p) (foldl setName m xx).
Proof.
  intros Hm Hxx. revert m Hm.
  induction Hxx as [|x xx Hx _ IH]; intros m Hm; simpl; [done|].
  apply IH. by apply map_Forall_insert_2.
Qed.

Lemma foldl_mergeList_Forall P m (ll : list Pkg) :
  (forall a p, P a -> P p -> P (overlaid a p)) ->
  map_Forall (fun _ p => P p) m -> Forall P ll ->
  map_Forall (fun _ p => P p) (foldl mergeList m ll).
Proof.
  intros Hov Hm Hll. revert m Hm.
  induction Hll as [|x ll Hx _ IH]; intros m Hm; simpl; [done|].
  apply IH. unfold mergeList.
  destruct (m !! Name x) as [a|] eqn:Ha; apply map_Forall_insert_2; try done.
  apply Hov; [|done]. by apply (Hm _ _ Ha).
Qed.

Lemma foldl_setName_keys m (xx : list Pkg) :
  map_Forall (fun nm p => Name p = nm) m ->
  map_Forall (fun nm p => Name p = nm) (foldl setName m xx).
Proof.
  revert m. induction xx as [|x xx IH]; intros m Hm; simpl; [done|].
  apply IH. by apply map_Forall_insert_2.
Qed.

Lemma foldl_mergeList_keys m (ll : list Pkg) :
  map_Forall (fun nm p => Name p = nm) m ->
  map_Forall (fun nm p => Name p = nm) (foldl mergeList m ll).
Proof.
  revert m. induction ll as [|x ll IH]; intros m Hm; simpl; [done|].
  apply IH. unfold mergeList.
  destruct (m !! Name x) as [a|] eqn:Ha; apply map_Forall_insert_2; try done.
  simpl. by apply (Hm _ _ Ha).
Qed.

(** In the merged map every record is bound to its own name. *)
Lemma mergedNames_keys (xx ll : list Pkg) :
  map_Forall (fun nm p => Name p = nm) (mergedNames xx ll).
Proof.
  unfold mergedNames. apply foldl_mergeList_keys, foldl_setName_keys.
  apply map_Forall_empty.
Qed.

Lemma mergedNames_Forall P (xx ll : list Pkg) :
  (forall a p, P a -> P p -> P (overlaid a p)) ->
  Forall P xx -> Forall P ll ->
  map_Forall (fun _ p => P p) (mergedNames xx ll).
Proof.
  intros Hov Hxx Hll. unfold mergedNames.
  apply foldl_mergeList_Forall; [done| |done].
  apply foldl_setName_Forall; [|done]. apply map_Forall_empty.
Qed.

Lemma appendUid_Forall P u p :
  map_Forall (fun _ r => Forall P r) u -> P p ->
  map_Forall (fun _ r => Forall P r) (appendUid u p).
Proof.
  intros Hu Hp. unfold appendUid. apply map_Forall_insert_2; [|done].
  apply Forall_app. split; [|by repeat constructor].
  destruct (u !! Uid p) as [r|] eqn:Hr; simpl; [by apply (Hu _ _ Hr)|constructor].
Qed.

Lemma reverseLookup_Forall P order m :
  map_Forall (fun _ p => P p) m ->
  map_Forall (fun _ r => Forall P r) (reverseLookup order m).
Proof.
  intros Hm uid r Hr. apply Forall_forall. intros p Hp.
  destruct (reverseLookup_sound order m uid r p Hr Hp) as (_ & nm & Hnm).
  by apply (Hm _ _ Hnm).
Qed.

(** What a successful [refresh] publishes. *)
Lemma refresh_Ok_inv (w : World) (db : PackageDB) :
  (refresh w db).2 = Ok () ->
  exists ll xx,
    parseList w (listFile db) = Ok ll
    /\ parseXML w (xmlFile db) = Ok xx
    /\ lastUpd (refresh w db).1 = Now w
    /\ byName (refresh w db).1
       = match getself w with
         | Some p => setName (mergedNames xx ll) p
         | None => mergedNames xx ll
         end
    /\ byUid (refresh w db).1
       = match getself w with
         | Some p => appendUid (reverseLookup (map_order w) (mergedNames xx ll)) p
         | None => reverseLookup (map_order w) (mergedNames xx ll)
         end.
Proof.
  unfold refresh.
  destruct (parseList w (listFile db)) as [ll|e1|p1]; simpl; try done.
  destruct (parseXML w (xmlFile db)) as [xx|e2|p2]; simpl; try done.
  intros _. exists ll, xx. destruct (getself w); simpl; done.
Qed.

Lemma refresh_cases (w : World) (db : PackageDB) :
  (refresh w db).2 = Ok () \/ (refresh w db).1 = db.
Proof.
  destruct (refresh w db).2 as [[]|e|p] eqn:Hr; [by left| |];
    right; apply refresh_not_Ok_state; rewrite Hr; done.
Qed.

Lemma maybeRefresh_cases (w : World) (db : PackageDB) :
  (maybeRefresh w db).1 = db
  \/ ((refresh w db).2 = Ok () /\ (maybeRefresh w db).1 = (refresh w db).1).
Proof.
  unfold maybeRefresh.
  destruct (os_Stat w (listFile db)); [|by left].
  destruct (os_Stat w (xmlFile db)); [|by left].
  destruct (_ || _); [|by left].
  destruct (refresh_cases w db) as [Hok|Hsame].
  - right. destruct (refresh w db) as [db' r]; simpl in *. subst. done.
  - left. destruct (refresh w db) as [db' [[]|e|p]]; simpl in *; done.
Qed.

(** A property of records that the parsers establish and the overlay
    keeps holds of every record of every reachable registry. *)
Lemma reachable_Forall P :
  (forall a p, P a -> P p -> P (overlaid a p)) ->
  (forall w fn ll, parseList w fn = Ok ll -> Forall P ll) ->
  (forall w fn xx, parseXML w fn = Ok xx -> Forall P xx) ->
  (forall w p, getself w = Some p -> P p) ->
  forall db, reachable db -> registry_Forall P db.
Proof.
  intros Hov Hlist Hxml Hself.
  assert (Hrefresh : forall w db, registry_Forall P db -> registry_Forall P (refresh w db).1).
  { intros w db Hdb. destruct (refresh_cases w db) as [Hok|Hsame]; [|by rewrite Hsame].
    destruct (refresh_Ok_inv w db Hok) as (ll & xx & Hll & Hxx & _ & Hn & Hu).
    assert (Hm : map_Forall (fun _ p => P p) (mergedNames xx ll)).
    { apply mergedNames_Forall; eauto. }
    split; [rewrite Hn|rewrite Hu]; destruct (getself w) as [p|] eqn:Hp.
    - apply map_Forall_insert_2; eauto.
    - done.
    - apply appendUid_Forall; eauto. by apply reverseLookup_Forall.
    - by apply reverseLookup_Forall. }
  assert (Hempty : forall l x t, registry_Forall P
            {| listFile := l; xmlFile := x; lastUpd := t; byName := ∅; byUid := ∅ |}).
  { intros. split; apply map_Forall_empty. }
  induction 1 as [w xml list|w db _ IH|db _ IH].
  - apply Hrefresh, Hempty.
  - destruct (maybeRefresh_cases w db) as [->|[_ ->]]; [done|by apply Hrefresh].
  - apply Hempty.
Qed.

End Merge.

(** ** C5: certificate and fingerprint go together *)

Section CertHash.

Context `{X509}.

Lemma parseXMLPkg_cert_ok (x : Xml.xpkg) (y : Pkg) :
  parseXMLPkg x = Ok y -> cert_ok y.
Proof.
  unfold parseXMLPkg. intros Hy.
  apply outcome_bind_Ok in Hy as (uid & _ & Hy).
  destruct (0 <? String.length _)%nat.
  - destruct (Hex.DecodeString _) as [b [e|]]; [discriminate|].
    destruct (0 <? length b)%nat.
    + destruct (ParseCertificate b); [|discriminate].
      injection Hy as <-. unfold cert_ok; simpl. apply Sha1_Sum_length.
    + by injection Hy as <-.
  - by injection Hy as <-.
Qed.

Lemma parseXMLPkgs_Forall (P : Pkg -> Prop) (xs : list Xml.xpkg) (g : list Pkg) :
  (forall x y, parseXMLPkg x = Ok y -> P y) ->
  parseXMLPkgs xs = Ok g -> Forall P g.
Proof.
  intros HP. revert g. induction xs as [|x xs IH]; intros g; simpl.
  - intros [= <-]. constructor.
  - intros Hg.
    apply outcome_bind_Ok in Hg as (y & Hy & Hg).
    apply outcome_bind_Ok in Hg as (g' & Hg' & [= <-]).
    constructor; eauto.
Qed.

Lemma parseXML_Forall (P : Pkg -> Prop) (w : World) (fn : string) (xx : list Pkg) :
  (forall x y, parseXMLPkg x = Ok y -> P y) ->
  parseXML w fn = Ok xx -> Forall P xx.
Proof.
  intros HP. unfold parseXML.
  destruct (ReadFile w fn) as [[msg|Pkgs]|err]; try discriminate.
  by apply parseXMLPkgs_Forall.
Qed.

Lemma parseListLine_no_cert (l : string) (p : Pkg) :
  parseListLine l = Ok (Some p) -> Cert p = None /\ Certhash p = [] /\ Path p = "".
Proof.
  unfold parseListLine.
  destruct (length (Bytes.Fields l) =? 0)%nat; [discriminate|].
  intros Hp.
  apply outcome_bind_Ok in Hp as (v1 & _ & Hp).
  destruct (Strconv.ParseUint0 v1 32) as [u [e|]].
  { destruct (index _ 0); discriminate. }
  apply outcome_bind_Ok in Hp as (v5 & _ & Hp).
  apply outcome_bind_Ok in Hp as (gid & _ & Hp).
  apply outcome_bind_Ok in Hp as (v0 & _ & Hp).
  apply outcome_bind_Ok in Hp as (v3 & _ & Hp).
  apply outcome_bind_Ok in Hp as (v4 & _ & Hp).
  by injection Hp as <-.
Qed.

Lemma parseLines_Forall (P : Pkg -> Prop) (ls : list string) (pa ll : list Pkg) :
  (forall l p, parseListLine l = Ok (Some p) -> P p) ->
  Forall P pa -> parseLines ls pa = Ok ll -> Forall P ll.
Proof.
  intros HP. revert pa. induction ls as [|l ls IH]; intros pa Hpa; simpl.
  - by intros [= <-].
  - intros Hll. apply outcome_bind_Ok in Hll as (r & Hr & Hll).
    apply (IH _ ) in Hll; [done|].
    destruct r as [p|]; [|done].
    apply Forall_app. split; [done|]. repeat constructor. eauto.
Qed.

Lemma parseList_Forall (P : Pkg -> Prop) (w : World) (fn : string) (ll : list Pkg) :
  (forall l p, parseListLine l = Ok (Some p) -> P p) ->
  parseList w fn = Ok ll -> Forall P ll.
Proof.
  intros HP. unfold parseList.
  destruct (os_Open w fn) as [data|err]; [|discriminate].
  by apply parseLines_Forall.
Qed.

Lemma getself_inv (w : World) (p : Pkg) :
  getself w = Some p ->
  p = {| Name := ("caller-uid-" ++ FormatUint (Getuid w mod 2 ^ 32))%string;
         DataPath := ""; Path := ""; Uid := Getuid w mod 2 ^ 32; SEinfo := "";
         Gid := []; Cert := None; Certhash := [] |}.
Proof. unfold getself. destruct (build_prop w); [discriminate|]. by intros [= <-]. Qed.

Lemma reachable_cert_ok (db : PackageDB) :
  reachable db -> registry_Forall cert_ok db.
Proof.
  apply reachable_Forall.
  - intros a p Ha _. exact Ha.
  - intros w fn ll. apply parseList_Forall.
    intros l p Hp. apply parseListLine_no_cert in Hp as (Hc & Hh & _).
    unfold cert_ok. by rewrite Hc.
  - intros w fn xx. apply parseXML_Forall, parseXMLPkg_cert_ok.
  - intros w p Hp. apply getself_inv in Hp as ->. done.
Qed.

End CertHash.

(** C5.  In every registry a program can hold, each record (whether
    found by name or in the bucket of an owner id) has either a
    certificate and a fingerprint of exactly 20 bytes, or neither of
    the two. *)
Theorem certificate_iff_fingerprint `{X509} (db : PackageDB) :
  reachable db ->
  registry_Forall
    (fun p => (is_Some (Cert p) /\ length (Certhash p) = 20%nat)
              \/ (Cert p = None /\ Certhash p = [])) db.
Proof.
  intros Hdb. destruct (reachable_cert_ok db Hdb) as [Hn Hu].
  assert (Hok : forall p, cert_ok p ->
            (is_Some (Cert p) /\ length (Certhash p) = 20%nat)
            \/ (Cert p = None /\ Certhash p = [])).
  { intros p. unfold cert_ok. destruct (Cert p); eauto. }
  split.
  - intros nm p Hp. apply Hok, (Hn _ _ Hp).
  - intros uid r Hr. eapply Forall_impl; [apply (Hu _ _ Hr)|]. exact Hok.
Qed.

Lemma certificate_iff_fingerprint_witness :
  @reachable Sample.x509 Sample.db_signed
  /\ (exists p, byUid Sample.db_signed !! 10100 = Some [p]
                /\ is_Some (Cert p) /\ length (Certhash p) = 20%nat)
  /\ @registry_Forall Sample.x509
       (fun p => (is_Some (Cert p) /\ length (Certhash p) = 20%nat)
                 \/ (Cert p = None /\ Certhash p = [])) Sample.db_signed.
Proof.
  assert (Hr : @reachable Sample.x509 Sample.db_signed) by apply reach_open.
  split; [exact Hr|]. split.
  - eexists. split; [vm_compute; reflexivity|]. split; [by eexists|reflexivity].
  - exact (@certificate_iff_fingerprint Sample.x509 Sample.db_signed Hr).
Defined.

(** ** C2: what the merge copies from packages.list *)

(** C2.  The merge copies [Gid] and [DataPath] of the record of
    packages.list onto the record of packages.xml with the same name
    and leaves [Path], [Uid], [Cert] and [Certhash] alone; [SEinfo] is
    not copied.  For the line
    ["app.one 10050 0 /data/app.one seinfo:default 10050,10051"] and the
    package [app.one] with [userId] 10050, the record of the list has
    [SEinfo = "seinfo:default"] and the merged record has [SEinfo = ""]. *)
Theorem merge_leaves_SEinfo :
  (forall (X : X509) (a p : Pkg),
     DataPath (overlaid a p) = DataPath p /\ Gid (overlaid a p) = Gid p
     /\ Path (overlaid a p) = Path a /\ Uid (overlaid a p) = Uid a
     /\ Cert (overlaid a p) = Cert a /\ Certhash (overlaid a p) = Certhash a
     /\ SEinfo (overlaid a p) = SEinfo a)
  /\ @parseList Sample.x509
       (Sample.world true [] Sample.app_one_line (Xml.Packages [Sample.app_one]))
       "packages.list"
     = Ok [{| Name := "app.one"; DataPath := "/data/app.one"; Path := "";
              Uid := 10050; SEinfo := "seinfo:default"; Gid := [10050; 10051];
              Cert := None; Certhash := [] |}]
  /\ byName Sample.db_one !! "app.one"
     = Some {| Name := "app.one"; DataPath := "/data/app.one";
               Path := "/data/app/app.one"; Uid := 10050; SEinfo := "";
               Gid := [10050; 10051]; Cert := None; Certhash := [] |}.
Proof.
  split; [by intros|]. split; vm_compute; reflexivity.
Qed.

(** ** C7: the buckets and the names *)

Section Buckets.

Context `{X509}.

(** Without a pseudo package, or with one whose name no manifest uses,
    a rebuilt registry has every record of a bucket under its own name
    in [byName], and under that name only. *)
Lemma refresh_buckets_by_name (w : World) (db : PackageDB) :
  (refresh w db).2 = Ok () ->
  (forall s ll xx, getself w = Some s ->
     parseList w (listFile db) = Ok ll -> parseXML w (xmlFile db) = Ok xx ->
     mergedNames xx ll !! Name s = None) ->
  buckets_by_name (refresh w db).1.
Proof.
  intros Hok Hfresh.
  destruct (refresh_Ok_inv w db Hok) as (ll & xx & Hll & Hxx & _ & Hn & Hu).
  pose proof (mergedNames_keys xx ll) as Hkeys.
  set (m := mergedNames xx ll) in *.
  assert (Hold : forall uid r p, reverseLookup (map_order w) m !! uid = Some r -> p ∈ r ->
            m !! Name p = Some p).
  { intros uid r p Hr Hp.
    destruct (reverseLookup_sound _ _ _ _ _ Hr Hp) as (_ & nm & Hnm).
    by rewrite (Hkeys _ _ Hnm). }
  intros uid r p Hr Hp. rewrite Hn. rewrite Hu in Hr.
  destruct (getself w) as [s|] eqn:Hs.
  - specialize (Hfresh s ll xx eq_refl Hll Hxx). fold m in Hfresh.
    assert (Hcase : p = s \/ m !! Name p = Some p).
    { rewrite appendUid_lookup in Hr. case_decide as Hd.
      - injection Hr as <-. apply elem_of_app in Hp as [Hp|Hp].
        + right. destruct (reverseLookup (map_order w) m !! uid) as [r0|] eqn:Hr0;
            simpl in Hp; [by eapply Hold|by apply elem_of_nil in Hp].
        + left. by apply list_elem_of_singleton in Hp.
      - right. by eapply Hold. }
    unfold setName. destruct Hcase as [->|Hp'].
    + split; [by rewrite lookup_insert_eq|].
      intros nm Hnm. destruct (decide (Name s = nm)) as [|Hne]; [done|].
      rewrite lookup_insert_ne in Hnm by done. by rewrite (Hkeys _ _ Hnm).
    + assert (Hne : Name s <> Name p) by congruence.
      split; [by rewrite lookup_insert_ne|].
      intros nm Hnm. destruct (decide (Name s = nm)) as [<-|Hne'].
      * rewrite lookup_insert_eq in Hnm. injection Hnm as ->. done.
      * rewrite lookup_insert_ne in Hnm by done. by rewrite (Hkeys _ _ Hnm).
  - split; [by eapply Hold|].
    intros nm Hnm. by rewrite (Hkeys _ _ Hnm).
Qed.

End Buckets.

(** C7.  On a development host whose packages.xml lists a package
    named [caller-uid-1000] with [userId] 5, opened by user 1000: the
    pseudo package takes the name in [byName], and the record of the
    manifest stays in the bucket of owner id 5 without being the value
    of any name. *)
Theorem bucket_record_without_name :
  let db := (@OpenPackageDB Sample.x509 Sample.world_same_name
               "packages.xml" "packages.list").1 in
  let p : @Pkg Sample.x509 :=
    {| Name := "caller-uid-1000"; DataPath := ""; Path := "/data/app/caller-uid-1000";
       Uid := 5; SEinfo := ""; Gid := []; Cert := None; Certhash := [] |} in
  (@OpenPackageDB Sample.x509 Sample.world_same_name "packages.xml" "packages.list").2 = Ok ()
  /\ byUid db !! 5 = Some [p]
  /\ byName db !! Name p <> Some p
  /\ (forall nm, byName db !! nm <> Some p)
  /\ ~ buckets_by_name db.
Proof.
  intros db p.
  assert (H5 : byUid db !! 5 = Some [p]) by (vm_compute; reflexivity).
  assert (Hnm : byName db !! Name p <> Some p) by (vm_compute; discriminate).
  assert (Hdom : forall nm q, byName db !! nm = Some q -> q <> p).
  { intros nm q Hq.
    assert (Hm : byName db = {[ "caller-uid-1000"%string :=
              {| Name := "caller-uid-1000"; DataPath := ""; Path := ""; Uid := 1000;
                 SEinfo := ""; Gid := []; Cert := None; Certhash := [] |} ]}).
    { vm_compute. reflexivity. }
    rewrite Hm in Hq. apply lookup_singleton_Some in Hq as [_ <-]. discriminate. }
  split; [vm_compute; reflexivity|]. split; [exact H5|]. split; [exact Hnm|].
  split.
  - intros nm Hq. by apply (Hdom nm p Hq).
  - intros Hb. destruct (Hb 5 [p] p H5) as [Hp _]; [by apply list_elem_of_singleton|].
    by apply Hnm.
Qed.

(** ** C8: who sees the error of a failed rebuild *)

Section Surfacing.

Context `{X509}.

Lemma refresh_parse_Err (w : World) (db : PackageDB) (e : error) :
  parseList w (listFile db) = Err e
  \/ (exists ll, parseList w (listFile db) = Ok ll /\ parseXML w (xmlFile db) = Err e) ->
  refresh w db = (db, Err e).
Proof.
  unfold refresh. intros [-> | (ll & -> & ->)]; done.
Qed.

End Surfacing.

Lemma lookup_drops_error :
  (@refresh Sample.x509 Sample.world_bad_list Sample.db_one).2
  = Err (Errorf "Cannot parse UID <%s> for %s: %s"
           [OStr "ten"; OStr "app.two"; OErr (NumError "ten" Strconv.ErrSyntax)])
  /\ (exists mt, os_Stat Sample.world_bad_list (listFile Sample.db_one) = Some mt
                 /\ After mt (lastUpd Sample.db_one) = true)
  /\ (@GetByName Sample.x509 Sample.world_bad_list "app.one" Sample.db_one).2
     = Ok (byName Sample.db_one !! "app.one")
  /\ ~ @lookup_surfaces_error Sample.x509 Sample.world_bad_list Sample.db_one.
Proof.
  assert (Hr : (@refresh Sample.x509 Sample.world_bad_list Sample.db_one).2
               = Err (Errorf "Cannot parse UID <%s> for %s: %s"
                        [OStr "ten"; OStr "app.two"; OErr (NumError "ten" Strconv.ErrSyntax)]))
    by (vm_compute; reflexivity).
  assert (Hg : (@GetByName Sample.x509 Sample.world_bad_list "app.one" Sample.db_one).2
               = Ok (byName Sample.db_one !! "app.one"))
    by (vm_compute; reflexivity).
  split; [exact Hr|]. split; [exists 300; split; reflexivity|]. split; [exact Hg|].
  intros Hs. specialize (Hs _ Hr "app.one"). rewrite Hg in Hs. discriminate.
Qed.

(** C8 (amended).  When parsing either manifest fails with [e]:
    [refresh] returns [e] and leaves the data base as it was;
    [OpenPackageDB] hands [e] to its caller, together with a data base
    whose maps are empty; [maybeRefresh] drops [e], so that [GetByName],
    [GetListByUid] and [GetByUid] return no error and answer from the
    maps of before the attempt. *)
Theorem parse_error_surfaces_at_open `{X509} (w : World) (xml list : string) (e : error) :
  parseList w list = Err e
  \/ (exists ll, parseList w list = Ok ll /\ parseXML w xml = Err e) ->
  OpenPackageDB w xml list
  = ({| listFile := list; xmlFile := xml; lastUpd := 0; byName := ∅; byUid := ∅ |}, Err e)
  /\ forall db, listFile db = list -> xmlFile db = xml ->
       refresh w db = (db, Err e)
       /\ maybeRefresh w db = (db, Ok ())
       /\ (forall nm, GetByName w nm db = (db, Ok (byName db !! nm)))
       /\ (forall uid, GetListByUid w uid db = (db, Ok (default [] (byUid db !! uid))))
       /\ (forall uid e', (GetByUid w uid db).1 = db /\ (GetByUid w uid db).2 <> Err e').
Proof.
  intros Hfail. split.
  - unfold OpenPackageDB. by apply refresh_parse_Err.
  - intros db <- <-.
    pose proof (refresh_parse_Err w db e Hfail) as Hr.
    assert (Hm : maybeRefresh w db = (db, Ok ())).
    { apply (maybeRefresh_refresh_Err w db e). by rewrite Hr. }
    split; [done|]. split; [done|]. split; [|split].
    + intros nm. unfold GetByName. by rewrite Hm.
    + intros uid. unfold GetListByUid. by rewrite Hm.
    + intros uid e'. unfold GetByUid. rewrite Hm.
      destruct (byUid db !! uid) as [[|p r]|]; simpl; done.
Qed.

Lemma parse_error_surfaces_at_open_witness :
  (@OpenPackageDB Sample.x509 Sample.world_bad_xml "packages.xml" "packages.list").2
  = Err (Errorf ("%s: uid and sharedUid are both Nil!" ++ String LF "") [OStr "app.two"])
  /\ @maybeRefresh Sample.x509 Sample.world_bad_xml Sample.db_one = (Sample.db_one, Ok ()).
Proof.
  destruct (@parse_error_surfaces_at_open Sample.x509 Sample.world_bad_xml
              "packages.xml" "packages.list"
              (Errorf ("%s: uid and sharedUid are both Nil!" ++ String LF "") [OStr "app.two"]))
    as [Hopen Hdb].
  { right. eexists. split; vm_compute; reflexivity. }
  split.
  - by rewrite Hopen.
  - by destruct (Hdb Sample.db_one eq_refl eq_refl) as (_ & Hm & _).
Defined.

(** ** C9: the first record of a bucket *)

Section FirstOfBucket.

Context `{X509}.

Lemma refresh_same_paths (w : World) (db1 db2 : PackageDB) :
  listFile db1 = listFile db2 -> xmlFile db1 = xmlFile db2 ->
  (refresh w db1).2 = Ok () -> refresh w db2 = refresh w db1.
Proof.
  unfold refresh. intros <- <-.
  destruct (parseList w (listFile db1)) as [ll|e1|p1]; simpl; try done.
  destruct (parseXML w (xmlFile db1)) as [xx|e2|p2]; simpl; done.
Qed.

Lemma refresh_paths (w : World) (db : PackageDB) :
  listFile (refresh w db).1 = listFile db /\ xmlFile (refresh w db).1 = xmlFile db.
Proof.
  unfold refresh.
  destruct (parseList w (listFile db)) as [ll|e1|p1]; simpl; try done.
  destruct (parseXML w (xmlFile db)) as [xx|e2|p2]; simpl; try done.
  destruct (getself w); done.
Qed.




Lemma refresh_Ok_byUid (w : World) (db : PackageDB) :
  (refresh w db).2 = Ok () ->
  exists ll xx,
    parseList w (listFile db) = Ok ll /\ parseXML w (xmlFile db) = Ok xx
    /\ forall uid,
         byUid (refresh w db).1 !! uid
         = match filter (fun p => Uid p = uid)
                   (appended (map_order w) (mergedNames xx ll) (getself w)) with
           | [] => None
           | f => Some f
           end.
Proof.
  intros Hok.
  destruct (refresh_Ok_inv w db Hok) as (ll & xx & Hll & Hxx & _ & _ & Hu).
  exists ll, xx. split; [done|]. split; [done|]. intros uid. rewrite Hu.
  unfold appended. destruct (getself w) as [s|]; simpl.
  - change (appendUid (reverseLookup (map_order w) (mergedNames xx ll)) s)
      with (foldl appendUid (reverseLookup (map_order w) (mergedNames xx ll)) [s]).
    unfold reverseLookup. rewrite <- foldl_app.
    by rewrite foldl_appendUid_lookup, lookup_empty.
  - rewrite app_nil_r. apply reverseLookup_lookup.
Qed.


End FirstOfBucket.




(** ** C4: the fingerprint of a certificate *)

Lemma fromHexChar_upper (c : ascii) :
  (15 <? Hex.fromHexChar c) = false -> Hex.fromHexChar (upper_char c) = Hex.fromHexChar c.
Proof.
  destruct c as [[] [] [] [] [] [] [] []]; vm_compute; first [reflexivity | discriminate].
Qed.

Lemma fromHexChar_lower (c : ascii) :
  (15 <? Hex.fromHexChar c) = false -> Hex.fromHexChar (lower_char c) = Hex.fromHexChar c.
Proof.
  destruct c as [[] [] [] [] [] [] [] []]; vm_compute; first [reflexivity | discriminate].
Qed.

Section HexCase.

Variable f : ascii -> ascii.
Hypothesis f_digit : forall c,
  (15 <? Hex.fromHexChar c) = false -> Hex.fromHexChar (f c) = Hex.fromHexChar c.

Lemma map_chars_length (s : string) : String.length (map_chars f s) = String.length s.
Proof. induction s as [|c s IH]; simpl; congruence. Qed.

(** [Decode] goes two characters at a time: the statement for [s] goes
    with the one for [s] behind one more character. *)
Lemma Decode_map_chars (s : string) :
  (forall b, Hex.Decode s = (b, None) -> Hex.Decode (map_chars f s) = (b, None))
  /\ (forall c b, Hex.Decode (String c s) = (b, None) ->
        Hex.Decode (String (f c) (map_chars f s)) = (b, None)).
Proof.
  induction s as [|q s [IH1 IH2]].
  - split; [done|]. intros c b. simpl. by destruct (15 <? Hex.fromHexChar c).
  - split; [exact (IH2 q)|].
    intros p b. simpl map_chars.
    change (Hex.Decode (String p (String q s)))
      with (let a := Hex.fromHexChar p in
            let b := Hex.fromHexChar q in
            if 15 <? a then ([], Some (Hex.InvalidByteError p))
            else if 15 <? b then ([], Some (Hex.InvalidByteError q))
            else let '(bs, e) := Hex.Decode s in
                 (byte_of_Z (Z.lor (Z.shiftl a 4) b) :: bs, e)).
    change (Hex.Decode (String (f p) (String (f q) (map_chars f s))))
      with (let a := Hex.fromHexChar (f p) in
            let b := Hex.fromHexChar (f q) in
            if 15 <? a then ([], Some (Hex.InvalidByteError (f p)))
            else if 15 <? b then ([], Some (Hex.InvalidByteError (f q)))
            else let '(bs, e) := Hex.Decode (map_chars f s) in
                 (byte_of_Z (Z.lor (Z.shiftl a 4) b) :: bs, e)).
    cbv zeta.
    destruct (15 <? Hex.fromHexChar p) eqn:Hp; [discriminate|].
    destruct (15 <? Hex.fromHexChar q) eqn:Hq; [discriminate|].
    rewrite (f_digit p Hp), (f_digit q Hq), Hp, Hq.
    destruct (Hex.Decode s) as [bs [e|]] eqn:Hs; [discriminate|].
    intros [= <-]. by rewrite (IH1 bs eq_refl).
Qed.

Lemma DecodeString_map_chars (s : string) (b : list byte) :
  Hex.DecodeString s = (b, None) -> Hex.DecodeString (map_chars f s) = (b, None).
Proof. apply Decode_map_chars. Qed.

End HexCase.

Lemma DecodeString_nonempty (s : string) (b : list byte) :
  s <> "" -> Hex.DecodeString s = (b, None) -> (0 < length b)%nat.
Proof.
  unfold Hex.DecodeString. destruct s as [|p [|q s]]; [done| |]; intros _; simpl.
  - by destruct (15 <? Hex.fromHexChar p).
  - destruct (15 <? Hex.fromHexChar p); [discriminate|].
    destruct (15 <? Hex.fromHexChar q); [discriminate|].
    destruct (Hex.Decode s) as [bs e]. intros [= <- _]. simpl. lia.
Qed.

Section Fingerprint.

Context `{X509}.

(** The record of an element whose certificate decodes and parses. *)
Lemma parseXMLPkg_certificate (x : Xml.xpkg) (uid : Z) (b : list byte) (crt : Certificate) :
  ownerUid x = Ok uid ->
  Xml.Cert (Xml.Certstr x) <> "" ->
  Hex.DecodeString (Xml.Cert (Xml.Certstr x)) = (b, None) ->
  ParseCertificate b = inl crt ->
  parseXMLPkg x
  = Ok {| Name := Xml.Name x; DataPath := ""; Path := Xml.Path x; Uid := uid;
          SEinfo := ""; Gid := []; Cert := Some crt; Certhash := Sha1.Sum b |}.
Proof.
  intros Hu Hne Hdec Hcrt. unfold parseXMLPkg. rewrite Hu.
  unfold mbind, outcome_bind. cbv zeta.
  pose proof (DecodeString_nonempty _ b Hne Hdec) as Hb.
  rewrite Hdec, Hcrt.
  destruct (Nat.ltb_spec 0 (String.length (Xml.Cert (Xml.Certstr x)))) as [_|Hlen].
  - by destruct (Nat.ltb_spec 0 (length b)) as [_|]; [|lia].
  - destruct (Xml.Cert (Xml.Certstr x)); [done|simpl in Hlen; lia].
Qed.

End Fingerprint.

(** C4.  For a package element with an owner id whose hex string is
    not empty, decodes to the bytes [b] and whose [b] parses as a
    certificate: the record has that certificate and the fingerprint
    [Sha1.Sum b], which has 20 bytes; writing the hex string in capital
    or in small letters gives the same record. *)
Theorem fingerprint_is_digest_of_bytes `{X509}
    (x : Xml.xpkg) (uid : Z) (b : list byte) (crt : Certificate) :
  ownerUid x = Ok uid ->
  Xml.Cert (Xml.Certstr x) <> "" ->
  Hex.DecodeString (Xml.Cert (Xml.Certstr x)) = (b, None) ->
  ParseCertificate b = inl crt ->
  exists y,
    parseXMLPkg x = Ok y
    /\ Cert y = Some crt
    /\ Certhash y = Sha1.Sum b
    /\ length (Certhash y) = 20%nat
    /\ (0 < length b)%nat
    /\ parseXMLPkg (with_key x (ToUpper (Xml.Cert (Xml.Certstr x)))) = Ok y
    /\ parseXMLPkg (with_key x (ToLower (Xml.Cert (Xml.Certstr x)))) = Ok y.
Proof.
  intros Hu Hne Hdec Hcrt.
  eexists. split; [by apply (parseXMLPkg_certificate x uid b crt)|].
  simpl. split; [done|]. split; [done|]. split; [apply Sha1_Sum_length|].
  split; [by apply (DecodeString_nonempty _ b Hne)|].
  assert (Hcase : forall f,
            (forall c, (15 <? Hex.fromHexChar c) = false ->
                       Hex.fromHexChar (f c) = Hex.fromHexChar c) ->
            parseXMLPkg (with_key x (map_chars f (Xml.Cert (Xml.Certstr x))))
            = Ok {| Name := Xml.Name x; DataPath := ""; Path := Xml.Path x; Uid := uid;
                    SEinfo := ""; Gid := []; Cert := Some crt; Certhash := Sha1.Sum b |}).
  { intros f Hf.
    apply (parseXMLPkg_certificate (with_key x _) uid b crt); simpl; try done.
    - intros Hempty. apply Hne.
      apply (f_equal String.length) in Hempty. rewrite map_chars_length in Hempty.
      by destruct (Xml.Cert (Xml.Certstr x)).
    - by apply DecodeString_map_chars. }
  split; apply Hcase; [apply fromHexChar_upper|apply fromHexChar_lower].
Qed.

Lemma fingerprint_is_digest_of_bytes_witness :
  exists y,
    @parseXMLPkg Sample.x509 Sample.signed = Ok y
    /\ map byte_val (Certhash y)
       = [55; 226; 165; 100; 240; 241; 63; 10; 174; 108; 165; 55; 23; 177; 63; 235;
          146; 253; 246; 16]
    /\ @parseXMLPkg Sample.x509 (Sample.package "app.signed" 0 10100 "3082ab01") = Ok y.
Proof.
  destruct (@fingerprint_is_digest_of_bytes Sample.x509 Sample.signed 10100
              [x30; x82; xab; x01] [x30; x82; xab; x01])
    as (y & Hy & _ & Hh & _ & _ & _ & Hlow); try (vm_compute; reflexivity).
  { discriminate. }
  exists y. split; [exact Hy|]. split; [rewrite Hh; vm_compute; reflexivity|exact Hlow].
Defined.

(** ** C6: the group ids of a line *)

Lemma code_digit_char (d : Z) : 0 <= d <= 9 -> code (digit_char d) = 48 + d.
Proof.
  intros Hd. unfold code, digit_char.
  rewrite N_ascii_embedding by lia. rewrite Z2N.id; lia.
Qed.

Lemma digits_digit (base cutoff maxVal d : Z) (rest : string) (us : bool) (n : Z) :
  0 <= d <= 9 -> d < base -> 0 <= n < cutoff -> n * base + d <= maxVal ->
  maxVal < 2 ^ 64 ->
  Strconv.digits base cutoff maxVal (String (digit_char d) rest) us n
  = Strconv.digits base cutoff maxVal rest us (n * base + d).
Proof.
  intros Hd Hb Hn Hmax H64. cbn [Strconv.digits]. rewrite code_digit_char by done.
  cbv zeta.
  destruct (Z.eqb_spec (48 + d) 95); [lia|].
  destruct (Z.leb_spec 48 (48 + d)); [|lia].
  destruct (Z.leb_spec (48 + d) 57); [|lia]. cbn [andb].
  replace (48 + d - 48) with d by lia.
  destruct (Z.leb_spec base d); [lia|].
  destruct (Z.leb_spec cutoff n); [lia|].
  assert (0 <= n * base) by nia.
  rewrite (Z.mod_small (n * base)) by lia.
  rewrite (Z.mod_small (n * base + d)) by lia.
  destruct (Z.ltb_spec (n * base + d) (n * base)); [lia|].
  destruct (Z.ltb_spec maxVal (n * base + d)); [lia|]. reflexivity.
Qed.

Lemma digits_format_digits (cutoff maxVal : Z) (us : bool) (fuel : nat) :
  maxVal < 2 ^ 64 ->
  forall (n : Z) (acc : string),
    0 <= n < 10 ^ Z.of_nat fuel -> n <= maxVal -> n < cutoff ->
    Strconv.digits 10 cutoff maxVal (format_digits fuel n acc) us 0
    = Strconv.digits 10 cutoff maxVal acc us n.
Proof.
  intros H64. induction fuel as [|fuel IH]; intros n acc Hn Hmax Hcut.
  - simpl in *. by replace n with 0 by lia.
  - rewrite Nat2Z.inj_succ, Z.pow_succ_r in Hn by lia.
    cbn [format_digits]. cbv zeta.
    pose proof (Z.mod_pos_bound n 10 ltac:(lia)) as Hmod.
    pose proof (Z.div_mod n 10 ltac:(lia)) as Hdiv.
    destruct (Z.eqb_spec (n / 10) 0) as [Hz|Hnz].
    + rewrite digits_digit by lia. f_equal. lia.
    + assert (0 <= n / 10) by (apply Z.div_pos; lia).
      rewrite IH by lia.
      rewrite digits_digit by lia. f_equal. lia.
Qed.

Lemma format_digits_head (fuel : nat) (n : Z) (acc : string) :
  0 < n < 10 ^ Z.of_nat fuel ->
  exists k rest, 1 <= k <= 9 /\ format_digits fuel n acc = String (digit_char k) rest.
Proof.
  revert n acc. induction fuel as [|fuel IH]; intros n acc Hn.
  - simpl in Hn. lia.
  - rewrite Nat2Z.inj_succ, Z.pow_succ_r in Hn by lia.
    cbn [format_digits]. cbv zeta.
    pose proof (Z.mod_pos_bound n 10 ltac:(lia)) as Hmod.
    pose proof (Z.div_mod n 10 ltac:(lia)) as Hdiv.
    destruct (Z.eqb_spec (n / 10) 0) as [Hz|Hnz].
    + exists (n mod 10), acc. split; [lia|done].
    + assert (0 <= n / 10) by (apply Z.div_pos; lia).
      apply IH. lia.
Qed.


(** [ParseUint] reads back what [Sprintf("%v")] prints. *)
Lemma ParseUint0_FormatUint (g : Z) :
  0 <= g < 2 ^ 32 -> Strconv.ParseUint0 (FormatUint g) 32 = (g, None).
Proof.
  intros Hg. destruct (Z.eq_dec g 0) as [->|Hnz]; [reflexivity|].
  destruct (format_digits_head 20 g "") as (k & rest & Hk & Hhead); [lia|].
  unfold Strconv.ParseUint0. fold (FormatUint g) in Hhead.
  assert (Hpre : Strconv.base_prefix (FormatUint g) = (10, FormatUint g)).
  { rewrite Hhead. cbn [Strconv.base_prefix]. rewrite code_digit_char by lia.
    by destruct (Z.eqb_spec (48 + k) 48); [lia|]. }
  rewrite Hpre.
  assert (Hd : Strconv.digits 10 (Strconv.maxUint64 / 10 + 1) (2 ^ 32 - 1)
                 (FormatUint g) false 0 = (g, false, None)).
  { unfold FormatUint. rewrite digits_format_digits; [done|lia|lia|lia|].
    assert (Strconv.maxUint64 / 10 + 1 = 1844674407370955162) as -> by reflexivity.
    lia. }
  rewrite Hd. rewrite Hhead at 1. done.
Qed.



Lemma append_cons (a : ascii) (s t : string) :
  (String a s ++ t = String a (s ++ t))%string.
Proof. reflexivity. Qed.

Lemma append_empty_r (s : string) : (s ++ "" = s)%string.
Proof. induction s as [|a s IH]; [done|]. by rewrite append_cons, IH. Qed.

Lemma string_app_snoc (cur : string) (c : ascii) (rest : string) :
  ((cur ++ String c "") ++ rest = cur ++ String c rest)%string.
Proof. induction cur as [|a cur IH]; [done|]. by rewrite !append_cons, IH. Qed.





Section GroupIds.

Context `{X509}.



End GroupIds.



(** * Further properties of the code *)

(** ** The two indices of a registry *)

Section WellFormed.

Context `{X509}.

Lemma parseXMLPkg_no_panic (x : Xml.xpkg) (p : panic) : parseXMLPkg x <> Panic p.
Proof.
  unfold parseXMLPkg, ownerUid.
  destruct (0 <? Xml.Uid x); [|destruct (0 <? Xml.SharedUid x); [|done]];
    simpl; (destruct (0 <? String.length _)%nat; [|done]);
    (destruct (Hex.DecodeString _) as [b [e|]]; [done|]);
    (destruct (0 <? length b)%nat; [|done]);
    destruct (ParseCertificate b); done.
Qed.

Lemma parseXML_no_panic (w : World) (fn : string) (p : panic) : parseXML w fn <> Panic p.
Proof.
  unfold parseXML. destruct (ReadFile w fn) as [[msg|Pkgs]|err]; try done.
  induction Pkgs as [|x xs IH]; simpl; [done|].
  destruct (parseXMLPkg x) as [y|e|q] eqn:Hx; simpl; [|done|].
  - destruct (parseXMLPkgs xs); simpl; done.
  - by apply parseXMLPkg_no_panic in Hx.
Qed.

(** [refresh] panics only where [parseList] does. *)
Lemma refresh_Panic_inv (w : World) (db : PackageDB) (p : panic) :
  (refresh w db).2 = Panic p -> parseList w (listFile db) = Panic p.
Proof.
  unfold refresh.
  destruct (parseList w (listFile db)) as [ll|e1|p1]; simpl.
  - destruct (parseXML w (xmlFile db)) as [xx|e2|p2] eqn:Hx; simpl.
    + destruct (getself w); simpl; discriminate.
    + discriminate.
    + by apply parseXML_no_panic in Hx.
  - discriminate.
  - by intros [= ->].
Qed.

Lemma maybeRefresh_Panic_inv (w : World) (db : PackageDB) (p : panic) :
  (maybeRefresh w db).2 = Panic p -> parseList w (listFile db) = Panic p.
Proof.
  unfold maybeRefresh.
  destruct (os_Stat w (listFile db)); [|done].
  destruct (os_Stat w (xmlFile db)); [|done].
  destruct (_ || _); [|done].
  destruct (refresh w db) as [db' [[]|e|q]] eqn:Hr; simpl; try done.
  intros [= ->]. apply refresh_Panic_inv. by rewrite Hr.
Qed.

Lemma refresh_wf (w : World) (db : PackageDB) :
  (refresh w db).2 = Ok () -> registry_wf (refresh w db).1.
Proof.
  intros Hok.
  destruct (refresh_Ok_inv w db Hok) as (ll & xx & Hll & Hxx & _ & Hn & _).
  destruct (refresh_Ok_byUid w db Hok) as (ll' & xx' & Hll' & Hxx' & Hu).
  assert (ll' = ll) as -> by congruence. assert (xx' = xx) as -> by congruence.
  pose proof (mergedNames_keys xx ll) as Hkeys.
  set (m := mergedNames xx ll) in *.
  assert (Hin : forall nm p, byName (refresh w db).1 !! nm = Some p ->
            Name p = nm /\ p ∈ appended (map_order w) m (getself w)).
  { intros nm p. rewrite Hn. unfold appended.
    assert (Hm : m !! nm = Some p ->
              Name p = nm /\ p ∈ (range_order (map_order w) (map_to_list m)).*2).
    { intros Hp. split; [by apply (Hkeys _ _ Hp)|].
      apply list_elem_of_fmap. exists (nm, p). split; [done|].
      rewrite range_order_Permutation. by apply elem_of_map_to_list. }
    destruct (getself w) as [s|]; simpl.
    - unfold setName. destruct (decide (Name s = nm)) as [<-|Hne].
      + rewrite lookup_insert_eq. intros [= <-]. split; [done|].
        apply elem_of_app. right. by apply list_elem_of_singleton.
      + rewrite lookup_insert_ne by done. intros Hp.
        destruct (Hm Hp) as [? ?]. split; [done|]. apply elem_of_app. by left.
    - intros Hp. destruct (Hm Hp) as [? ?]. split; [done|]. by rewrite app_nil_r. }
  split; [|split].
  - intros nm p Hp. by apply Hin in Hp as [? _].
  - intros nm p Hp. apply Hin in Hp as [_ Hp]. rewrite Hu.
    assert (Hf : p ∈ filter (fun q => Uid q = Uid p)
                   (appended (map_order w) m (getself w))).
    { apply list_elem_of_filter. by split. }
    destruct (filter _ _) as [|q f]; [by apply elem_of_nil in Hf|]. eauto.
  - intros uid r. rewrite Hu.
    assert (Hall : Forall (fun p : Pkg => Uid p = uid)
              (filter (fun p => Uid p = uid) (appended (map_order w) m (getself w)))).
    { apply Forall_forall. intros p Hp. by apply list_elem_of_filter in Hp as [? _]. }
    destruct (filter _ _) as [|q f]; [done|]. intros [= <-]. by split.
Qed.

Lemma empty_wf (l x : string) (t : Time) :
  registry_wf {| listFile := l; xmlFile := x; lastUpd := t; byName := ∅; byUid := ∅ |}.
Proof.
  unfold registry_wf; simpl. split; [|split].
  - intros nm p Hp. by rewrite lookup_empty in Hp.
  - intros nm p Hp. by rewrite lookup_empty in Hp.
  - intros uid r Hr. by rewrite lookup_empty in Hr.
Qed.

Lemma reachable_wf (db : PackageDB) : reachable db -> registry_wf db.
Proof.
  assert (Hrefresh : forall w db, registry_wf db -> registry_wf (refresh w db).1).
  { intros w db' Hdb. destruct (refresh_cases w db') as [Hok|Hsame];
      [by apply refresh_wf|by rewrite Hsame]. }
  induction 1 as [w xml lst|w db _ IH|db _ IH].
  - apply Hrefresh, empty_wf.
  - destruct (maybeRefresh_cases w db) as [->|[_ ->]]; [done|by apply Hrefresh].
  - apply empty_wf.
Qed.

End WellFormed.

Section Lookups.

Context `{X509}.

Lemma maybeRefresh_reachable (w : World) (db : PackageDB) :
  reachable db -> registry_wf (maybeRefresh w db).1.
Proof. intros Hdb. apply reachable_wf. by constructor. Qed.

End Lookups.

(** X1.  In a registry a program can hold, a record found with
    [GetByName] bears the name asked for, and [GetListByUid] called for
    its owner id in the same situation returns a list that holds it. *)
Theorem found_by_name_is_in_bucket `{X509}
    (w : World) (db : PackageDB) (nm : string) (p : Pkg) :
  reachable db ->
  (GetByName w nm db).2 = Ok (Some p) ->
  Name p = nm
  /\ exists l, (GetListByUid w (Uid p) db).2 = Ok l /\ p ∈ l.
Proof.
  intros Hdb. pose proof (maybeRefresh_reachable w db Hdb) as (Hname & Hbucket & _).
  unfold GetByName, GetListByUid.
  destruct (maybeRefresh w db) as [db' [[]|e|q]]; simpl in *; try discriminate.
  intros [= Hp]. split; [by apply Hname|].
  destruct (Hbucket nm p Hp) as (r & Hr & Hin). exists r. by rewrite Hr.
Qed.

Lemma found_by_name_is_in_bucket_witness :
  exists p, byName Sample.db_signed !! "app.signed" = Some p
            /\ Name p = "app.signed"
            /\ exists l, (@GetListByUid Sample.x509
                            (Sample.world true [] "" (Xml.Packages [Sample.signed]))
                            (Uid p) Sample.db_signed).2 = Ok l /\ p ∈ l.
Proof.
  eexists. split; [vm_compute; reflexivity|].
  apply (@found_by_name_is_in_bucket Sample.x509
           (Sample.world true [] "" (Xml.Packages [Sample.signed])) Sample.db_signed).
  - apply reach_open.
  - vm_compute. reflexivity.
Defined.

(** X2.  In a registry a program can hold, [GetByUid] returns the first
    record of the list [GetListByUid] returns ([nil] when that list is
    empty), every record of the list has the owner id asked for, and
    the only panic of either lookup is the index out of range of
    [parseList] during a rebuild: [r[0]] is never out of range. *)
Theorem first_by_uid_is_head_of_list `{X509} (w : World) (db : PackageDB) (uid : Z) :
  reachable db ->
  (GetByUid w uid db).1 = (GetListByUid w uid db).1
  /\ match (GetListByUid w uid db).2 with
     | Ok l => (GetByUid w uid db).2 = Ok (head l)
               /\ Forall (fun p => Uid p = uid) l
     | Err e => False
     | Panic p => (GetByUid w uid db).2 = Panic p
                  /\ parseList w (listFile db) = Panic p
     end.
Proof.
  intros Hdb. pose proof (maybeRefresh_reachable w db Hdb) as (_ & _ & Hbucket).
  pose proof (maybeRefresh_not_Err w db) as Hne.
  pose proof (maybeRefresh_Panic_inv w db) as Hpanic.
  unfold GetByUid, GetListByUid.
  destruct (maybeRefresh w db) as [db' [[]|e|q]]; simpl in *.
  - destruct (byUid db' !! uid) as [r|] eqn:Hr; simpl; [|by repeat split].
    destruct (Hbucket uid r Hr) as [Hnil Hall].
    destruct r as [|p r]; [done|]. by repeat split.
  - by destruct (Hne e).
  - split; [done|]. split; [done|]. by apply Hpanic.
Qed.

Lemma first_by_uid_is_head_of_list_witness :
  exists p l,
    (@GetListByUid Sample.x509 (Sample.world_order [1%nat]) 10100
       (@OpenPackageDB Sample.x509 (Sample.world_order [1%nat])
          "packages.xml" "packages.list").1).2 = Ok (p :: l)
    /\ (@GetByUid Sample.x509 (Sample.world_order [1%nat]) 10100
          (@OpenPackageDB Sample.x509 (Sample.world_order [1%nat])
             "packages.xml" "packages.list").1).2 = Ok (Some p).
Proof.
  destruct (@first_by_uid_is_head_of_list Sample.x509 (Sample.world_order [1%nat])
              (@OpenPackageDB Sample.x509 (Sample.world_order [1%nat])
                 "packages.xml" "packages.list").1 10100)
    as [_ Hhead]; [apply reach_open|].
  destruct (@GetListByUid Sample.x509 (Sample.world_order [1%nat]) 10100 _).2
    as [[|p l]|e|q] eqn:Hl; try (vm_compute in Hl; discriminate).
  exists p, l. split; [reflexivity|]. by destruct Hhead as [-> _].
Defined.

(** ** Lookups that follow one another, and [Close] *)

Section Repeated.

Context `{X509}.


Lemma maybeRefresh_stale (w : World) (db : PackageDB) :
  maybeRefresh w db
  = if stale w db then
      match refresh w db with
      | (db', Panic p) => (db', Panic p)
      | (db', _) => (db', Ok ())
      end
    else (db, Ok ()).
Proof.
  unfold maybeRefresh, stale.
  destruct (os_Stat w (listFile db)); [|done].
  by destruct (os_Stat w (xmlFile db)).
Qed.

Lemma maybeRefresh_Close (w : World) (db : PackageDB) :
  (refresh w db).2 = Ok () -> stale w db = true ->
  maybeRefresh w (Close db) = maybeRefresh w db.
Proof.
  intros Hok Hstale.
  pose proof (refresh_same_paths w db (Close db) eq_refl eq_refl Hok) as Hre.
  rewrite !maybeRefresh_stale.
  change (stale w (Close db)) with (stale w db). by rewrite Hstale, Hre.
Qed.

End Repeated.


(** X4.  [Close] empties the two maps and keeps the time of the last
    update: closing twice is closing once; as long as neither file is
    newer than that time (or one of them cannot be examined) the
    lookups on the closed registry find nothing; and a lookup that
    finds a newer file and can parse both rebuilds the registry exactly
    as it would have without the [Close]. *)
Theorem close_then_lookup `{X509} (w : World) (db : PackageDB) :
  Close (Close db) = Close db
  /\ LastUpdate (Close db) = LastUpdate db
  /\ (stale w db = false ->
      forall nm uid,
        GetByName w nm (Close db) = (Close db, Ok None)
        /\ GetListByUid w uid (Close db) = (Close db, Ok [])
        /\ GetByUid w uid (Close db) = (Close db, Ok None))
  /\ (stale w db = true -> (refresh w db).2 = Ok () ->
      forall nm uid,
        GetByName w nm (Close db) = GetByName w nm db
        /\ GetListByUid w uid (Close db) = GetListByUid w uid db
        /\ GetByUid w uid (Close db) = GetByUid w uid db).
Proof.
  split; [done|]. split; [done|]. split.
  - intros Hfresh nm uid.
    assert (Hm : maybeRefresh w (Close db) = (Close db, Ok ())).
    { rewrite maybeRefresh_stale.
      change (stale w (Close db)) with (stale w db). by rewrite Hfresh. }
    unfold GetByName, GetListByUid, GetByUid. rewrite Hm. simpl.
    by rewrite !lookup_empty.
  - intros Hstale Hok nm uid.
    unfold GetByName, GetListByUid, GetByUid.
    by rewrite (maybeRefresh_Close w db Hok Hstale).
Qed.

Lemma close_then_lookup_witness :
  @GetByName Sample.x509 Sample2.world_untouched "app.one" (Close Sample.db_one)
  = (Close Sample.db_one, Ok None)
  /\ @GetByName Sample.x509 Sample2.world_touched "app.one" (Close Sample.db_one)
     = @GetByName Sample.x509 Sample2.world_touched "app.one" Sample.db_one.
Proof.
  destruct (@close_then_lookup Sample.x509 Sample2.world_untouched Sample.db_one)
    as (_ & _ & Hfresh & _).
  destruct (@close_then_lookup Sample.x509 Sample2.world_touched Sample.db_one)
    as (_ & _ & _ & Hstale).
  split.
  - by destruct (Hfresh eq_refl "app.one" 0) as [-> _].
  - assert (Hok : (@refresh Sample.x509 Sample2.world_touched Sample.db_one).2 = Ok ())
      by (vm_compute; reflexivity).
    by destruct (Hstale eq_refl Hok "app.one" 0) as [-> _].
Defined.

(** ** What the merge keeps of records with the same name *)

Section MergeByName.

Context `{X509}.

Implicit Types (p a q : Pkg) (m : gmap string Pkg).

Lemma overlaid_self p : overlaid p p = p.
Proof. by destruct p. Qed.

Lemma overlaid_overlaid a p q : overlaid (overlaid a p) q = overlaid a q.
Proof. done. Qed.

Lemma foldl_setName_lookup m (xx : list Pkg) (nm : string) :
  foldl setName m xx !! nm
  = match lastNamed nm xx with
    | Some p => Some p
    | None => m !! nm
    end.
Proof.
  unfold lastNamed. revert m. induction xx as [|x xx IH]; intros m; simpl; [done|].
  rewrite IH, filter_cons. unfold setName.
  destruct (decide (Name x = nm)) as [Hx|Hx].
  - rewrite last_cons. subst nm. rewrite lookup_insert_eq.
    by destruct (last (filter _ xx)).
  - rewrite lookup_insert_ne by done. done.
Qed.

Lemma foldl_mergeList_lookup m (ll : list Pkg) (nm : string) :
  foldl mergeList m ll !! nm
  = match m !! nm, firstNamed nm ll, lastNamed nm ll with
    | Some a, _, Some q => Some (overlaid a q)
    | None, Some p1, Some q => Some (overlaid p1 q)
    | o, _, _ => o
    end.
Proof.
  unfold firstNamed, lastNamed. revert m.
  induction ll as [|x ll IH]; intros m; simpl.
  - by destruct (m !! nm).
  - rewrite IH, mergeList_lookup, filter_cons.
    destruct (decide (Name x = nm)) as [Hx|Hx].
    + rewrite last_cons. cbn [head].
      destruct (filter (fun p : Pkg => Name p = nm) ll) as [|q f].
      * simpl. destruct (m !! nm); simpl; by rewrite ?overlaid_self.
      * assert (Hlast : is_Some (last (q :: f))) by (by apply last_is_Some).
        destruct Hlast as [q' Hq']. rewrite Hq'. cbn [head].
        by destruct (m !! nm).
    + by destruct (m !! nm).
Qed.

Lemma mergedNames_lookup (xx ll : list Pkg) (nm : string) :
  mergedNames xx ll !! nm
  = match lastNamed nm xx, firstNamed nm ll, lastNamed nm ll with
    | Some a, _, Some q => Some (overlaid a q)
    | Some a, _, None => Some a
    | None, Some p1, Some q => Some (overlaid p1 q)
    | None, _, _ => None
    end.
Proof.
  unfold mergedNames. rewrite foldl_mergeList_lookup, foldl_setName_lookup, lookup_empty.
  destruct (lastNamed nm xx), (firstNamed nm ll), (lastNamed nm ll); done.
Qed.

Lemma lastNamed_None (nm : string) (l : list Pkg) :
  Forall (fun p => Name p <> nm) l -> lastNamed nm l = None /\ firstNamed nm l = None.
Proof.
  intros Hl. unfold lastNamed, firstNamed.
  assert (filter (fun p : Pkg => Name p = nm) l = []) as ->; [|done].
  induction Hl as [|x l Hx _ IH]; [done|].
  rewrite filter_cons. by destruct (decide (Name x = nm)).
Qed.

End MergeByName.

(** X5.  The record the merge leaves under a name.  When packages.xml
    has records of that name, it is the last of them, with [DataPath]
    and [Gid] of the last record of that name in packages.list if there
    is one.  When only packages.list has records of that name, it is
    the first of them, with [DataPath] and [Gid] of the last of them.
    When neither has one, the name is not in the map. *)
Theorem merged_record_of_name `{X509} (xx ll : list Pkg) (nm : string) :
  mergedNames xx ll !! nm
  = match lastNamed nm xx, firstNamed nm ll, lastNamed nm ll with
    | Some a, _, Some q => Some (overlaid a q)
    | Some a, _, None => Some a
    | None, Some p1, Some q => Some (overlaid p1 q)
    | None, _, _ => None
    end.
Proof. apply mergedNames_lookup. Qed.

(** ** What a rebuild publishes *)

Section Published.

Context `{X509}.

Lemma refresh_Ok_byName (w : World) (db : PackageDB) (ll xx : list Pkg) (nm : string) :
  parseList w (listFile db) = Ok ll -> parseXML w (xmlFile db) = Ok xx ->
  byName (refresh w db).1 !! nm
  = match getself w with
    | Some s => if decide (Name s = nm) then Some s else mergedNames xx ll !! nm
    | None => mergedNames xx ll !! nm
    end.
Proof.
  intros Hll Hxx. unfold refresh. rewrite Hll, Hxx.
  destruct (getself w) as [s|]; simpl; [|done].
  unfold setName. case_decide as Hd.
  - subst. by rewrite lookup_insert_eq.
  - by rewrite lookup_insert_ne.
Qed.

Lemma refresh_Ok_bucket (w : World) (db : PackageDB) (ll xx : list Pkg) (uid : Z) :
  parseList w (listFile db) = Ok ll -> parseXML w (xmlFile db) = Ok xx ->
  byUid (refresh w db).1 !! uid
  = match filter (fun p => Uid p = uid)
            (appended (map_order w) (mergedNames xx ll) (getself w)) with
    | [] => None
    | f => Some f
    end.
Proof.
  intros Hll Hxx.
  assert (Hok : (refresh w db).2 = Ok ()).
  { unfold refresh. rewrite Hll, Hxx. by destruct (getself w). }
  destruct (refresh_Ok_byUid w db Hok) as (ll' & xx' & Hll' & Hxx' & Hu).
  assert (ll' = ll) as -> by congruence. assert (xx' = xx) as -> by congruence.
  apply Hu.
Qed.

Lemma appended_elem_of (order : list nat) (m : gmap string Pkg) (self : option Pkg)
    (p : Pkg) :
  p ∈ appended order m self <-> (exists nm, m !! nm = Some p) \/ self = Some p.
Proof.
  unfold appended. rewrite elem_of_app, range_order_Permutation, list_elem_of_fmap.
  split.
  - intros [([nm q] & -> & Hq)|Hs].
    + left. exists nm. by apply elem_of_map_to_list.
    + right. destruct self as [s|]; simpl in Hs.
      * apply list_elem_of_singleton in Hs. by subst.
      * by apply elem_of_nil in Hs.
  - intros [[nm Hp]| ->].
    + left. exists (nm, p). split; [done|]. by apply elem_of_map_to_list.
    + right. simpl. by apply list_elem_of_singleton.
Qed.

End Published.

(** X6.  A rebuild that succeeds starts from empty maps: the registry
    it leaves is the same whatever the maps held before, and a name
    that neither manifest has (and that is not the name of the pseudo
    package) is bound to nothing afterwards, nor is a record of that
    name in any bucket, even when the registry knew the name before. *)
Theorem rebuild_forgets_the_past `{X509}
    (w : World) (db : PackageDB) (ll xx : list Pkg) :
  parseList w (listFile db) = Ok ll -> parseXML w (xmlFile db) = Ok xx ->
  (forall db2, listFile db2 = listFile db -> xmlFile db2 = xmlFile db ->
     refresh w db2 = refresh w db)
  /\ (refresh w db).2 = Ok ()
  /\ LastUpdate (refresh w db).1 = Now w
  /\ forall nm,
       Forall (fun p => Name p <> nm) xx -> Forall (fun p => Name p <> nm) ll ->
       (forall s, getself w = Some s -> Name s <> nm) ->
       byName (refresh w db).1 !! nm = None
       /\ forall uid r p, byUid (refresh w db).1 !! uid = Some r -> p ∈ r ->
            Name p <> nm.
Proof.
  intros Hll Hxx.
  assert (Hok : (refresh w db).2 = Ok ()).
  { unfold refresh. rewrite Hll, Hxx. by destruct (getself w). }
  split; [|split; [done|split]].
  - intros db2 Hl Hx. symmetry in Hl, Hx. by apply refresh_same_paths.
  - destruct (refresh_Ok_inv w db Hok) as (ll0 & xx0 & _ & _ & Ht & _). exact Ht.
  - intros nm Hnx Hnl Hns.
    assert (Hm : mergedNames xx ll !! nm = None).
    { rewrite mergedNames_lookup.
      destruct (lastNamed_None nm xx Hnx) as [-> _].
      by destruct (lastNamed_None nm ll Hnl) as [-> ->]. }
    split.
    + rewrite (refresh_Ok_byName w db ll xx nm Hll Hxx).
      destruct (getself w) as [s|]; [|done].
      case_decide as Hd; [|done]. by destruct (Hns s eq_refl).
    + intros uid r p. rewrite (refresh_Ok_bucket w db ll xx uid Hll Hxx).
      intros Hr Hp Hname.
      assert (Hin : p ∈ appended (map_order w) (mergedNames xx ll) (getself w)).
      { destruct (filter _ _) as [|q f] eqn:Hf; [done|].
        injection Hr as <-. rewrite <- Hf in Hp.
        by apply list_elem_of_filter in Hp as [_ ?]. }
      apply appended_elem_of in Hin as [[nm' Hp']|Hs].
      * pose proof (mergedNames_keys xx ll _ _ Hp') as Hk. simpl in Hk.
        subst nm'. rewrite Hname in Hp'. congruence.
      * by apply (Hns p Hs).
Qed.

Lemma rebuild_forgets_the_past_witness :
  byName Sample.db_one !! "app.one" <> None
  /\ byName (@refresh Sample.x509 Sample.world_same_name Sample.db_one).1 !! "app.one" = None.
Proof.
  split; [vm_compute; discriminate|].
  eapply (@rebuild_forgets_the_past Sample.x509 Sample.world_same_name Sample.db_one).
  - vm_compute. reflexivity.
  - vm_compute. reflexivity.
  - repeat constructor. discriminate.
  - constructor.
  - intros s [= <-]. discriminate.
Defined.

(** X7.  Off the device, a registry that opens holds the pseudo package
    of the caller: [byName] binds its name to it, and it is the last
    record of the bucket of the caller's user id; the records before it
    are the merged records of the manifests with that owner id, so the
    bucket has one record exactly when no such record exists (what
    [Test0] asserts). *)
Theorem opened_registry_holds_caller `{X509}
    (w : World) (xml lst : string) (ll xx : list Pkg) (s : Pkg) :
  getself w = Some s ->
  parseList w lst = Ok ll -> parseXML w xml = Ok xx ->
  (OpenPackageDB w xml lst).2 = Ok ()
  /\ byName (OpenPackageDB w xml lst).1 !! Name s = Some s
  /\ exists r,
       byUid (OpenPackageDB w xml lst).1 !! Uid s = Some (r ++ [s])%list
       /\ (forall p, p ∈ r <->
             Uid p = Uid s /\ exists nm, mergedNames xx ll !! nm = Some p)
       /\ (length (r ++ [s])%list = 1%nat <->
             forall nm p, mergedNames xx ll !! nm = Some p -> Uid p <> Uid s).
Proof.
  intros Hs Hll Hxx. unfold OpenPackageDB.
  set (db0 := {| listFile := lst; xmlFile := xml; lastUpd := 0; byName := ∅; byUid := ∅ |}).
  assert (Hok : (refresh w db0).2 = Ok ()).
  { unfold refresh. simpl. rewrite Hll, Hxx. by destruct (getself w). }
  split; [done|]. split.
  { rewrite (refresh_Ok_byName w db0 ll xx (Name s) Hll Hxx), Hs.
    by case_decide. }
  rewrite (refresh_Ok_bucket w db0 ll xx (Uid s) Hll Hxx), Hs.
  unfold appended. simpl. rewrite filter_app, filter_cons, filter_nil.
  case_decide; [|done].
  set (r := filter (fun p : Pkg => Uid p = Uid s)
              (range_order (map_order w) (map_to_list (mergedNames xx ll))).*2).
  assert (Hr : forall p, p ∈ r <->
            Uid p = Uid s /\ exists nm, mergedNames xx ll !! nm = Some p).
  { intros p. unfold r.
    rewrite list_elem_of_filter, range_order_Permutation, list_elem_of_fmap.
    split.
    - intros [Hu ([nm q] & -> & Hq)]. split; [done|].
      exists nm. by apply elem_of_map_to_list.
    - intros [Hu [nm Hp]]. split; [done|].
      exists (nm, p). split; [done|]. by apply elem_of_map_to_list. }
  exists r. split.
  { by destruct (r ++ [s])%list eqn:Hrs; [apply app_eq_nil in Hrs as [_ ?]|]. }
  split; [exact Hr|].
  rewrite length_app. simpl. split.
  - intros Hlen nm p Hp Hu.
    assert (Hin : p ∈ r) by (apply Hr; eauto).
    destruct r; [by apply elem_of_nil in Hin|simpl in Hlen; lia].
  - intros Hnone. destruct r as [|p r'] eqn:Er; [done|].
    assert (Hin : p ∈ r) by (rewrite Er; apply list_elem_of_here).
    rewrite <- Er in Hr. apply Hr in Hin as [Hu [nm Hp]]. by destruct (Hnone nm p Hp).
Qed.

Lemma opened_registry_holds_caller_witness :
  exists s, @getself Sample.x509 Sample.world_same_name = Some s
    /\ (@OpenPackageDB Sample.x509 Sample.world_same_name
          "packages.xml" "packages.list").2 = Ok ()
    /\ byName (@OpenPackageDB Sample.x509 Sample.world_same_name
                 "packages.xml" "packages.list").1 !! "caller-uid-1000" = Some s.
Proof.
  eexists. split; [reflexivity|].
  destruct (@opened_registry_holds_caller Sample.x509 Sample.world_same_name
              "packages.xml" "packages.list" []
              [{| Name := "caller-uid-1000"; DataPath := ""; Path := "/data/app/caller-uid-1000";
                  Uid := 5; SEinfo := ""; Gid := []; Cert := None; Certhash := [] |}]
              _ eq_refl eq_refl eq_refl)
    as (Hok & Hname & _).
  split; [exact Hok|exact Hname].
Defined.

(** ** The records and the errors of [parseXML] *)

Lemma Decode_ok_inv (s : string) :
  (forall b, Hex.Decode s = (b, None) ->
     String.length s = (2 * length b)%nat
     /\ string_Forall (fun c => Hex.fromHexChar c <= 15) s)
  /\ (forall c b, Hex.Decode (String c s) = (b, None) ->
        String.length (String c s) = (2 * length b)%nat
        /\ string_Forall (fun c => Hex.fromHexChar c <= 15) (String c s)).
Proof.
  induction s as [|q s [IH1 IH2]].
  - split; [by intros b [= <-]|].
    intros c b. simpl. by destruct (15 <? Hex.fromHexChar c).
  - split; [exact (IH2 q)|].
    intros p b.
    change (Hex.Decode (String p (String q s)))
      with (let a := Hex.fromHexChar p in
            let b := Hex.fromHexChar q in
            if 15 <? a then ([], Some (Hex.InvalidByteError p))
            else if 15 <? b then ([], Some (Hex.InvalidByteError q))
            else let '(bs, e) := Hex.Decode s in
                 (byte_of_Z (Z.lor (Z.shiftl a 4) b) :: bs, e)).
    cbv zeta.
    destruct (Z.ltb_spec 15 (Hex.fromHexChar p)) as [|Hp]; [discriminate|].
    destruct (Z.ltb_spec 15 (Hex.fromHexChar q)) as [|Hq]; [discriminate|].
    destruct (Hex.Decode s) as [bs [e|]] eqn:Hs; [discriminate|].
    intros [= <-]. destruct (IH1 bs eq_refl) as [Hlen Hall].
    split; [simpl; lia|]. by repeat split.
Qed.

Section MarkupRecords.

Context `{X509}.

Lemma ownerUid_positive (x : Xml.xpkg) (uid : Z) : ownerUid x = Ok uid -> 0 < uid.
Proof.
  unfold ownerUid.
  destruct (Z.ltb_spec 0 (Xml.Uid x)); [by intros [= <-]|].
  destruct (Z.ltb_spec 0 (Xml.SharedUid x)); [by intros [= <-]|done].
Qed.

Lemma parseXMLPkg_record (x : Xml.xpkg) (y : Pkg) :
  parseXMLPkg x = Ok y -> record_of x y.
Proof.
  unfold parseXMLPkg. intros Hy.
  apply outcome_bind_Ok in Hy as (uid & Hu & Hy).
  pose proof (ownerUid_positive x uid Hu) as Hpos.
  destruct (Nat.ltb_spec 0 (String.length (Xml.Cert (Xml.Certstr x)))) as [Hlen|Hlen].
  - destruct (Hex.DecodeString _) as [b [e|]] eqn:Hdec; [discriminate|].
    assert (Hne : Xml.Cert (Xml.Certstr x) <> "").
    { intros Heq. rewrite Heq in Hlen. simpl in Hlen. lia. }
    pose proof (DecodeString_nonempty _ b Hne Hdec) as Hb.
    destruct (Nat.ltb_spec 0 (length b)); [|lia].
    destruct (ParseCertificate b) as [crt|msg] eqn:Hcrt; [|discriminate].
    injection Hy as <-. unfold record_of; simpl. repeat split; try done. eauto.
  - injection Hy as <-. unfold record_of; simpl. repeat split; try done.
    destruct (Xml.Cert (Xml.Certstr x)); [done|simpl in Hlen; lia].
Qed.

Lemma parseXMLPkgs_Forall2 (xs : list Xml.xpkg) (g : list Pkg) :
  parseXMLPkgs xs = Ok g -> Forall2 (fun x y => parseXMLPkg x = Ok y) xs g.
Proof.
  revert g. induction xs as [|x xs IH]; intros g; simpl.
  - intros [= <-]. constructor.
  - intros Hg.
    apply outcome_bind_Ok in Hg as (y & Hy & Hg).
    apply outcome_bind_Ok in Hg as (g' & Hg' & [= <-]).
    constructor; eauto.
Qed.

Lemma parseXMLPkgs_all_Ok (xs : list Xml.xpkg) :
  Forall (fun x => exists y, parseXMLPkg x = Ok y) xs -> exists g, parseXMLPkgs xs = Ok g.
Proof.
  induction 1 as [|x xs [y Hy] _ [g Hg]]; simpl; [eauto|].
  rewrite Hy, Hg. simpl. eauto.
Qed.

Lemma parseXMLPkgs_Err_inv (xs : list Xml.xpkg) (e : error) :
  parseXMLPkgs xs = Err e ->
  exists pre x post g,
    xs = (pre ++ x :: post)%list /\ parseXMLPkgs pre = Ok g /\ parseXMLPkg x = Err e.
Proof.
  induction xs as [|x xs IH]; simpl; [discriminate|].
  destruct (parseXMLPkg x) as [y|e'|q] eqn:Hx; simpl.
  - destruct (parseXMLPkgs xs) as [g|e'|q] eqn:Hxs; simpl; try discriminate.
    intros [= ->]. destruct (IH eq_refl) as (pre & x' & post & g & -> & Hpre & Hx').
    exists (x :: pre), x', post, (y :: g). simpl. rewrite Hx, Hpre. by repeat split.
  - intros [= ->]. exists [], x, xs, []. by repeat split.
  - discriminate.
Qed.

End MarkupRecords.

(** X8.  When [parseXML] succeeds it returns one record for each
    package element, in the order of the document: the record has the
    name and the code path of its element, an owner id greater than
    zero ([userId], or else [sharedUserId]), no data path, security
    label or group ids, and either no certificate (the element has no
    hex string) or the certificate and the SHA-1 sum of the bytes the
    hex string decodes to. *)
Theorem parseXML_records `{X509}
    (w : World) (fn : string) (xs : list Xml.xpkg) (g : list Pkg) :
  ReadFile w fn = inl (Xml.Packages xs) ->
  parseXML w fn = Ok g ->
  length g = length xs /\ Forall2 record_of xs g.
Proof.
  intros Hrd. unfold parseXML. rewrite Hrd. intros Hg.
  apply parseXMLPkgs_Forall2 in Hg. split.
  - symmetry. by eapply Forall2_length.
  - eapply Forall2_impl; [exact Hg|]. apply parseXMLPkg_record.
Qed.

Lemma parseXML_records_witness :
  exists y, @parseXML Sample.x509 (Sample.world true [] "" (Xml.Packages [Sample.signed]))
              "packages.xml" = Ok [y]
            /\ @record_of Sample.x509 Sample.signed y.
Proof.
  eexists. split; [vm_compute; reflexivity|].
  destruct (@parseXML_records Sample.x509
              (Sample.world true [] "" (Xml.Packages [Sample.signed])) "packages.xml"
              [Sample.signed] _ eq_refl eq_refl) as [_ Hrec].
  by inversion Hrec.
Defined.

(** X9.  [parseXML] is all or nothing, and never panics: it returns
    records exactly when every package element parses, and otherwise
    the error of the first element of the document that does not
    parse; the elements behind that one do not matter. *)
Theorem parseXML_first_error `{X509} (w : World) (fn : string) (xs : list Xml.xpkg) :
  ReadFile w fn = inl (Xml.Packages xs) ->
  ((exists g, parseXML w fn = Ok g) <-> Forall (fun x => exists y, parseXMLPkg x = Ok y) xs)
  /\ (forall e, parseXML w fn = Err e <->
        exists pre x post g,
          xs = (pre ++ x :: post)%list /\ parseXMLPkgs pre = Ok g /\ parseXMLPkg x = Err e)
  /\ (forall p, parseXML w fn <> Panic p).
Proof.
  intros Hrd. split; [|split].
  - unfold parseXML. rewrite Hrd. split.
    + intros [g Hg]. apply parseXMLPkgs_Forall2 in Hg.
      clear Hrd. induction Hg as [|x y xs' g' Hxy _ IH]; [constructor|].
      constructor; [by exists y|exact IH].
    + apply parseXMLPkgs_all_Ok.
  - intros e. unfold parseXML. rewrite Hrd. split.
    + apply parseXMLPkgs_Err_inv.
    + intros (pre & x & post & g & -> & Hpre & Hx).
      by apply (parseXMLPkgs_app_Err pre post x g).
  - intros p. apply parseXML_no_panic.
Qed.

Lemma parseXML_first_error_witness :
  @parseXML Sample.x509
    (Sample.world true [] ""
       (Xml.Packages [Sample.app_one; Sample.package "app.two" 0 0 "";
                      Sample.package "app.three" 7 0 "zz"]))
    "packages.xml"
  = Err (bothNil (Sample.package "app.two" 0 0 "")).
Proof.
  apply (@parseXML_first_error Sample.x509
           (Sample.world true [] ""
              (Xml.Packages [Sample.app_one; Sample.package "app.two" 0 0 "";
                             Sample.package "app.three" 7 0 "zz"]))
           "packages.xml"
           [Sample.app_one; Sample.package "app.two" 0 0 "";
            Sample.package "app.three" 7 0 "zz"] eq_refl).
  exists [Sample.app_one], (Sample.package "app.two" 0 0 ""),
    [Sample.package "app.three" 7 0 "zz"]. eexists.
  split; [reflexivity|]. split; reflexivity.
Defined.

(** X10.  A package element whose hex string has an odd number of
    characters, or a character that is no hex digit, is refused: the
    element does not parse, with the error about the hex string when
    the element has an owner id, and a manifest that holds such an
    element makes [parseXML] return an error. *)
Theorem bad_key_is_refused `{X509} (x : Xml.xpkg) :
  Nat.odd (String.length (Xml.Cert (Xml.Certstr x))) = true
  \/ ~ string_Forall (fun c => Hex.fromHexChar c <= 15) (Xml.Cert (Xml.Certstr x)) ->
  (exists e, parseXMLPkg x = Err e)
  /\ (forall uid, ownerUid x = Ok uid ->
        exists he, parseXMLPkg x
                   = Err (Errorf "%s: Can't decode cert hex: %s"
                            [OStr (Xml.Name x); OErr (HexError he)]))
  /\ (forall w fn xs, ReadFile w fn = inl (Xml.Packages xs) -> x ∈ xs ->
        exists e, parseXML w fn = Err e).
Proof.
  intros Hbad.
  assert (Hdec : exists b he, Hex.DecodeString (Xml.Cert (Xml.Certstr x)) = (b, Some he)).
  { destruct (Hex.DecodeString _) as [b [he|]] eqn:Hd; [eauto|]. exfalso.
    destruct (Decode_ok_inv (Xml.Cert (Xml.Certstr x))) as [Hinv _].
    destruct (Hinv b Hd) as [Hlen Hall]. destruct Hbad as [Hodd|Hnot]; [|done].
    rewrite Hlen, Nat.odd_mul in Hodd. discriminate. }
  destruct Hdec as (b & he & Hdec).
  assert (Hlen : (0 <? String.length (Xml.Cert (Xml.Certstr x)))%nat = true).
  { destruct (Xml.Cert (Xml.Certstr x)); [discriminate|done]. }
  assert (Hx : forall uid, ownerUid x = Ok uid ->
            parseXMLPkg x = Err (Errorf "%s: Can't decode cert hex: %s"
                                   [OStr (Xml.Name x); OErr (HexError he)])).
  { intros uid Hu. unfold parseXMLPkg. rewrite Hu. simpl. by rewrite Hlen, Hdec. }
  assert (Hany : exists e, parseXMLPkg x = Err e).
  { pose proof (parseXMLPkg_no_panic x) as Hnp.
    destruct (ownerUid x) as [uid|e|q] eqn:Hu.
    - eauto.
    - exists e. unfold parseXMLPkg. by rewrite Hu.
    - unfold ownerUid in Hu.
      by destruct (0 <? Xml.Uid x), (0 <? Xml.SharedUid x). }
  split; [done|]. split; [eauto|].
  intros w fn xs Hrd Hin.
  destruct (parseXML w fn) as [g|e|q] eqn:Hp; [|eauto|by apply parseXML_no_panic in Hp].
  exfalso. unfold parseXML in Hp. rewrite Hrd in Hp.
  apply parseXMLPkgs_Forall2 in Hp.
  apply list_elem_of_lookup in Hin as [i Hi].
  destruct (Forall2_lookup_l _ _ _ _ _ Hp Hi) as (y & _ & Hy).
  destruct Hany as [e He]. congruence.
Qed.

Lemma bad_key_is_refused_witness :
  exists he, @parseXMLPkg Sample.x509 (Sample.package "app.odd" 10050 0 "30a")
             = Err (Errorf "%s: Can't decode cert hex: %s"
                      [OStr "app.odd"; OErr (HexError he)]).
Proof.
  destruct (@bad_key_is_refused Sample.x509 (Sample.package "app.odd" 10050 0 "30a"))
    as (_ & Hhex & _).
  - left. reflexivity.
  - apply (Hhex 10050). reflexivity.
Defined.

(** ** The records and the errors of [parseList] *)

Section LineRecords.

Context `{X509}.






End LineRecords.








(** ** The lines of [genlines] *)

Lemma genlines_chunks (data : string) :
  genlines data = flat_map line_of_chunk (ReadBytes "" data).
Proof. reflexivity. Qed.

Lemma string_app_assoc (s t u : string) : ((s ++ t) ++ u = s ++ t ++ u)%string.
Proof. induction s as [|a s IH]; [done|]. by rewrite !append_cons, IH. Qed.

Lemma string_Forall_app (P : ascii -> Prop) (s t : string) :
  string_Forall P (s ++ t) <-> string_Forall P s /\ string_Forall P t.
Proof.
  induction s as [|a s IH].
  - change ("" ++ t)%string with t. simpl. tauto.
  - rewrite append_cons. simpl. tauto.
Qed.

Lemma length_zero_iff (s : string) : (String.length s =? 0)%nat = true <-> s = "".
Proof. destruct s; simpl; split; (done || discriminate). Qed.

Lemma chop_snoc (c : ascii) (s : string) : chop c (s ++ String c "") = s.
Proof.
  induction s as [|a s IH].
  - change ("" ++ String c "")%string with (String c ""). simpl.
    by rewrite Ascii.eqb_refl.
  - rewrite append_cons. cbn [chop]. rewrite IH.
    destruct (s ++ String c "")%string eqn:Hs; [|done].
    by destruct s.
Qed.

Lemma chop_not_ending (c : ascii) (s : string) : not_ending c s -> chop c s = s.
Proof.
  induction s as [|a s IH]; [done|]. destruct s as [|b s].
  - simpl. intros Ha. by destruct (Ascii.eqb_spec a c).
  - intros Hs.
    change (chop c (String a (String b s))) with (String a (chop c (String b s))).
    by rewrite IH.
Qed.

Lemma chop_Forall (P : ascii -> Prop) (c : ascii) (s : string) :
  string_Forall P s -> string_Forall P (chop c s).
Proof.
  induction s as [|a s IH]; [done|]. intros [Ha Hs]. destruct s as [|b s].
  - simpl. by destruct (Ascii.eqb a c).
  - change (chop c (String a (String b s))) with (String a (chop c (String b s))).
    split; [done|]. by apply IH.
Qed.

Lemma ReadBytes_piece (l : string) :
  string_Forall (fun c => c <> LF) l ->
  forall cur,
    ReadBytes cur l = [(cur ++ l)%string]
    /\ forall rest,
         ReadBytes cur (l ++ String LF rest)
         = (cur ++ l ++ String LF "")%string :: ReadBytes "" rest.
Proof.
  induction l as [|c l IH]; intros Hl cur.
  - rewrite append_empty_r. split; [done|].
    intros rest. change ("" ++ String LF rest)%string with (String LF rest).
    cbn [ReadBytes]. by rewrite Ascii.eqb_refl.
  - destruct Hl as [Hc Hl].
    destruct (IH Hl (cur ++ String c "")%string) as [IH1 IH2].
    split.
    + cbn [ReadBytes]. destruct (Ascii.eqb_spec c LF) as [|_]; [done|].
      by rewrite IH1, string_app_snoc.
    + intros rest. rewrite append_cons. cbn [ReadBytes].
      destruct (Ascii.eqb_spec c LF) as [|_]; [done|].
      by rewrite IH2, string_app_snoc, append_cons.
Qed.

(** The chunks of [ReadBytes] hold a line feed at their end only. *)
Lemma ReadBytes_chunks (s : string) :
  forall cur, string_Forall (fun c => c <> LF) cur ->
    Forall (fun b => string_Forall (fun c => c <> LF) (chop LF b)) (ReadBytes cur s).
Proof.
  induction s as [|c s IH]; intros cur Hcur; cbn [ReadBytes].
  - constructor; [|constructor]. by apply chop_Forall.
  - destruct (Ascii.eqb_spec c LF) as [->|Hc].
    + constructor; [by rewrite chop_snoc|]. by apply IH.
    + apply IH. apply string_Forall_app. by repeat split.
Qed.

Lemma line_of_chunk_plain (b : string) :
  string_Forall (fun c => c <> LF) (chop LF b) ->
  Forall (fun l => l <> "" /\ string_Forall (fun c => c <> LF) l) (line_of_chunk b).
Proof.
  intros Hb. unfold line_of_chunk.
  destruct (String.length b =? 0)%nat; [constructor|]. cbv zeta.
  destruct (String.length (chop LF b) =? 0)%nat; [constructor|].
  destruct (String.length (chop CR (chop LF b)) =? 0)%nat eqn:Hlen; [constructor|].
  constructor; [|constructor]. split.
  - intros Heq. rewrite Heq in Hlen. discriminate.
  - by apply chop_Forall.
Qed.

(** X14.  Whatever the bytes of the file, no line that [genlines] sends
    is empty and none holds a line feed. *)
Theorem genlines_lines (data : string) :
  Forall (fun l => l <> "" /\ string_Forall (fun c => c <> LF) l) (genlines data).
Proof.
  rewrite genlines_chunks.
  pose proof (ReadBytes_chunks data "" I) as Hchunks.
  induction Hchunks as [|b bs Hb _ IH]; simpl; [constructor|].
  apply Forall_app. split; [by apply line_of_chunk_plain|exact IH].
Qed.

Lemma line_of_chunk_LF (l : string) :
  plain_line l -> line_of_chunk (l ++ eol_LF) = [l].
Proof.
  intros (Hne & Hlf & Hcr). unfold line_of_chunk, eol_LF.
  rewrite chop_snoc, (chop_not_ending CR l Hcr). cbv zeta.
  destruct (String.length (l ++ String LF "") =? 0)%nat eqn:H1.
  { apply length_zero_iff in H1. by destruct l. }
  destruct (String.length l =? 0)%nat eqn:H2; [by apply length_zero_iff in H2|done].
Qed.

Lemma line_of_chunk_CRLF (l : string) :
  plain_line l -> line_of_chunk (l ++ eol_CRLF) = [l].
Proof.
  intros (Hne & Hlf & Hcr). unfold line_of_chunk, eol_CRLF.
  replace (l ++ String CR (String LF ""))%string
    with ((l ++ String CR "") ++ String LF "")%string by apply string_app_snoc.
  rewrite !chop_snoc. cbv zeta.
  destruct (String.length ((l ++ String CR "") ++ String LF "") =? 0)%nat eqn:H1.
  { apply length_zero_iff in H1. by destruct l. }
  destruct (String.length (l ++ String CR "") =? 0)%nat eqn:H2.
  { apply length_zero_iff in H2. by destruct l. }
  destruct (String.length l =? 0)%nat eqn:H3; [by apply length_zero_iff in H3|done].
Qed.

Lemma line_of_chunk_last (l : string) :
  plain_line l -> line_of_chunk l = [l].
Proof.
  intros (Hne & Hlf & Hcr). unfold line_of_chunk.
  assert (Hnl : not_ending LF l).
  { clear -Hlf. induction l as [|a l IH]; [done|]. destruct Hlf as [Ha Hl].
    destruct l; [done|]. by apply IH. }
  rewrite (chop_not_ending LF l Hnl), (chop_not_ending CR l Hcr). cbv zeta.
  destruct (String.length l =? 0)%nat eqn:H2; [by apply length_zero_iff in H2|done].
Qed.

Lemma genlines_line_LF (l rest : string) :
  plain_line l -> genlines (l ++ eol_LF ++ rest) = l :: genlines rest.
Proof.
  intros Hl. rewrite !genlines_chunks. unfold eol_LF.
  change (String LF "" ++ rest)%string with (String LF rest).
  destruct Hl as (Hne & Hlf & Hcr).
  destruct (ReadBytes_piece l Hlf "") as [_ ->].
  change ("" ++ l ++ String LF "")%string with (l ++ eol_LF)%string.
  cbn [flat_map]. by rewrite line_of_chunk_LF.
Qed.

Lemma genlines_line_CRLF (l rest : string) :
  plain_line l -> genlines (l ++ eol_CRLF ++ rest) = l :: genlines rest.
Proof.
  intros Hl. rewrite !genlines_chunks. unfold eol_CRLF.
  change (String CR (String LF "") ++ rest)%string with (String CR (String LF rest)).
  destruct Hl as (Hne & Hlf & Hcr).
  assert (Hlf' : string_Forall (fun c => c <> LF) (l ++ String CR "")).
  { apply string_Forall_app. by repeat split. }
  replace (l ++ String CR (String LF rest))%string
    with ((l ++ String CR "") ++ String LF rest)%string by apply string_app_snoc.
  destruct (ReadBytes_piece _ Hlf' "") as [_ ->].
  change ("" ++ (l ++ String CR "") ++ String LF "")%string
    with ((l ++ String CR "") ++ String LF "")%string.
  rewrite string_app_snoc. change (String CR (String LF "")) with eol_CRLF.
  cbn [flat_map]. by rewrite line_of_chunk_CRLF.
Qed.

(** X15.  The lines of a text come back from [genlines], whether each
    is followed by a line feed or by a carriage return and a line feed,
    and whether or not the last one is: for lines that are not empty,
    hold no line feed and do not end in a carriage return. *)
Theorem genlines_unlines (ls : list string) :
  Forall plain_line ls ->
  genlines (unlines eol_LF ls) = ls
  /\ genlines (unlines eol_CRLF ls) = ls
  /\ forall l, plain_line l ->
       genlines (unlines eol_LF ls ++ l) = (ls ++ [l])%list
       /\ genlines (unlines eol_CRLF ls ++ l) = (ls ++ [l])%list.
Proof.
  intros Hls. induction Hls as [|l0 ls Hl0 _ (IH1 & IH2 & IH3)].
  - split; [done|]. split; [done|]. intros l Hl.
    change (unlines eol_LF [] ++ l)%string with l.
    change (unlines eol_CRLF [] ++ l)%string with l.
    rewrite genlines_chunks. destruct Hl as (Hne & Hlf & Hcr).
    destruct (ReadBytes_piece l Hlf "") as [-> _].
    change ("" ++ l)%string with l. cbn [flat_map].
    by rewrite line_of_chunk_last.
  - cbn [unlines]. split; [|split].
    + by rewrite genlines_line_LF, IH1.
    + by rewrite genlines_line_CRLF, IH2.
    + intros l Hl. destruct (IH3 l Hl) as [IHa IHb].
      rewrite !string_app_assoc.
      by rewrite genlines_line_LF, genlines_line_CRLF, IHa, IHb.
Qed.

Lemma genlines_unlines_witness :
  genlines (unlines eol_CRLF ["app.one 10050 0 /data/app.one default none"; "app.two 1 0 / x 7"])
  = ["app.one 10050 0 /data/app.one default none"; "app.two 1 0 / x 7"].
Proof.
  apply genlines_unlines.
  repeat constructor; discriminate.
Defined.

(** ** The pseudo package of the caller *)

Lemma FormatUint_inj (a b : Z) :
  0 <= a < 2 ^ 32 -> 0 <= b < 2 ^ 32 -> FormatUint a = FormatUint b -> a = b.
Proof.
  intros Ha Hb Heq.
  pose proof (ParseUint0_FormatUint a Ha) as Hpa.
  pose proof (ParseUint0_FormatUint b Hb) as Hpb.
  rewrite Heq in Hpa. congruence.
Qed.

(** X16.  The two [getself] hooks give the same pseudo package, except
    that the one for Linux gives none where /system/build.prop exists.
    Its owner id is the user id of the caller as a [uint32]; its name
    is [caller-uid-] followed by that number in decimal, which
    [ParseUint] reads back, so that the pseudo packages of two callers
    have the same name only if they are the same record. *)
Theorem pseudo_package_of_caller `{X509} (w1 w2 : World) (s1 s2 : Pkg) :
  getself_posix w1 = Some s1 -> getself_posix w2 = Some s2 ->
  getself w1 = (if build_prop w1 then None else Some s1)
  /\ Uid s1 = Getuid w1 mod 2 ^ 32
  /\ 0 <= Uid s1 < 2 ^ 32
  /\ Name s1 = ("caller-uid-" ++ FormatUint (Uid s1))%string
  /\ Strconv.ParseUint0 (FormatUint (Uid s1)) 32 = (Uid s1, None)
  /\ (Name s1 = Name s2 <-> Uid s1 = Uid s2)
  /\ (Name s1 = Name s2 -> s1 = s2).
Proof.
  unfold getself_posix, getself. intros [= <-] [= <-]. simpl.
  pose proof (Z.mod_pos_bound (Getuid w1) (2 ^ 32) ltac:(lia)) as H1.
  pose proof (Z.mod_pos_bound (Getuid w2) (2 ^ 32) ltac:(lia)) as H2.
  assert (Hinj : ("caller-uid-" ++ FormatUint (Getuid w1 mod 2 ^ 32))%string
                 = ("caller-uid-" ++ FormatUint (Getuid w2 mod 2 ^ 32))%string ->
                 Getuid w1 mod 2 ^ 32 = Getuid w2 mod 2 ^ 32).
  { intros Heq. apply (inj (String.append "caller-uid-")) in Heq.
    by apply FormatUint_inj. }
  split; [done|]. split; [done|]. split; [done|]. split; [done|].
  split; [by apply ParseUint0_FormatUint|]. split.
  - split; [exact Hinj|]. by intros ->.
  - intros Heq. by rewrite (Hinj Heq).
Qed.

Lemma pseudo_package_of_caller_witness :
  exists s, @getself Sample.x509 Sample.world_same_name = Some s
            /\ Name s = "caller-uid-1000" /\ Uid s = 1000
            /\ @getself Sample.x509 Sample2.world_untouched = None.
Proof.
  destruct (@pseudo_package_of_caller Sample.x509 Sample.world_same_name
              Sample2.world_untouched _ _ eq_refl eq_refl)
    as (Hlinux & Hu & _ & Hn & _).
  eexists. split; [exact Hlinux|]. split; [exact Hn|]. split; [exact Hu|reflexivity].
Defined.

(** ** When the registry is rebuilt *)

(** X17.  [maybeRefresh] never returns an error and never changes the
    two paths.  It leaves the registry alone unless both files can be
    examined and one of them is newer than the last update; and when it
    does change the registry, the rebuild has succeeded and the time of
    the last update is the time of the call. *)
Theorem maybeRefresh_effect `{X509} (w : World) (db : PackageDB) :
  (forall e, (maybeRefresh w db).2 <> Err e)
  /\ listFile (maybeRefresh w db).1 = listFile db
  /\ xmlFile (maybeRefresh w db).1 = xmlFile db
  /\ (stale w db = false -> maybeRefresh w db = (db, Ok ()))
  /\ ((maybeRefresh w db).1 <> db ->
      stale w db = true
      /\ (refresh w db).2 = Ok ()
      /\ (maybeRefresh w db).1 = (refresh w db).1
      /\ LastUpdate (maybeRefresh w db).1 = Now w).
Proof.
  split; [apply maybeRefresh_not_Err|].
  destruct (refresh_paths w db) as [Hl Hx].
  rewrite maybeRefresh_stale.
  destruct (stale w db) eqn:Hstale.
  - destruct (refresh_cases w db) as [Hok|Hsame].
    + destruct (refresh_Ok_inv w db Hok) as (ll & xx & _ & _ & Ht & _).
      destruct (refresh w db) as [db' r]; simpl in *. subst r.
      repeat split; try done.
    + destruct (refresh w db) as [db' [[]|e|p]]; simpl in *; subst db';
        repeat split; try done.
  - repeat split; try done.
Qed.

(** X18.  A registry whose opening failed with an error is empty and
    dated before every file; the first lookup made when both files can
    be examined, are dated after the zero time and parse leaves the
    registry that opening it then would have given. *)
Theorem failed_open_recovers `{X509}
    (w w' : World) (xml lst : string) (e : error) (mt0 mt1 : Time) :
  (OpenPackageDB w xml lst).2 = Err e ->
  os_Stat w' lst = Some mt0 -> os_Stat w' xml = Some mt1 ->
  0 < mt0 \/ 0 < mt1 ->
  (OpenPackageDB w' xml lst).2 = Ok () ->
  (forall nm, byName (OpenPackageDB w xml lst).1 !! nm = None)
  /\ LastUpdate (OpenPackageDB w xml lst).1 = 0
  /\ maybeRefresh w' (OpenPackageDB w xml lst).1 = ((OpenPackageDB w' xml lst).1, Ok ())
  /\ forall nm,
       GetByName w' nm (OpenPackageDB w xml lst).1
       = ((OpenPackageDB w' xml lst).1, Ok (byName (OpenPackageDB w' xml lst).1 !! nm)).
Proof.
  unfold OpenPackageDB. intros Herr H0 H1 Hnew Hok.
  set (db0 := {| listFile := lst; xmlFile := xml; lastUpd := 0;
                 byName := ∅; byUid := ∅ |}) in *.
  assert (Hst : (refresh w db0).1 = db0).
  { apply refresh_not_Ok_state. by rewrite Herr. }
  rewrite Hst.
  assert (Hm : maybeRefresh w' db0 = ((refresh w' db0).1, Ok ())).
  { rewrite maybeRefresh_stale. unfold stale. simpl. rewrite H0, H1.
    assert (After mt0 0 || After mt1 0 = true) as ->.
    { unfold After. destruct Hnew as [Hn|Hn].
      - by destruct (Z.ltb_spec 0 mt0); [|lia].
      - destruct (Z.ltb_spec 0 mt1); [|lia]. by rewrite orb_true_r. }
    destruct (refresh w' db0) as [db' r]; simpl in *. by subst r. }
  split; [by intros nm; simpl; rewrite lookup_empty|]. split; [done|].
  split; [done|]. intros nm. unfold GetByName. by rewrite Hm.
Qed.

Lemma failed_open_recovers_witness :
  (@OpenPackageDB Sample.x509 Sample.world_bad_xml "packages.xml" "packages.list").2
  = Err (bothNil (Sample.package "app.two" 0 0 ""))
  /\ (@GetByName Sample.x509 Sample2.world_touched "app.one"
        (@OpenPackageDB Sample.x509 Sample.world_bad_xml
           "packages.xml" "packages.list").1).2
     = Ok (byName (@OpenPackageDB Sample.x509 Sample2.world_touched
                     "packages.xml" "packages.list").1 !! "app.one").
Proof.
  split; [reflexivity|].
  destruct (@failed_open_recovers Sample.x509 Sample.world_bad_xml Sample2.world_touched
              "packages.xml" "packages.list"
              (bothNil (Sample.package "app.two" 0 0 "")) 300 300)
    as (_ & _ & _ & Hget).
  - reflexivity.
  - reflexivity.
  - reflexivity.
  - left. lia.
  - vm_compute. reflexivity.
  - by rewrite Hget.
Defined.

Lemma maybeRefresh_effect_witness :
  @maybeRefresh Sample.x509 Sample2.world_untouched Sample.db_one = (Sample.db_one, Ok ())
  /\ LastUpdate (@maybeRefresh Sample.x509 Sample2.world_touched Sample.db_one).1 = 400.
Proof.
  destruct (@maybeRefresh_effect Sample.x509 Sample2.world_untouched Sample.db_one)
    as (_ & _ & _ & Hfresh & _).
  destruct (@maybeRefresh_effect Sample.x509 Sample2.world_touched Sample.db_one)
    as (_ & _ & _ & _ & Hchanged).
  split; [by apply Hfresh|].
  apply Hchanged. vm_compute. discriminate.
Defined.
